(** * Tile lifecycle of the map view: visibility, resource ledger, disposal

    Shallow embedding of [Tile.ts] (class [Tile], [getFeatureDataSize],
    [getRoadIntersectionDataSize]) together with the properties its
    specification states about it.

    Conventions of the embedding.
    - A JavaScript [number] that holds a count, a byte size or a frame index is
      an integer of [Z]; no arithmetic of the modelled methods leaves the
      integers.
    - Objects that are compared by identity and on which the tile only calls
      methods (textures, materials, geometries, loaders, text elements) are
      identifiers ([positive]); the call itself is recorded as an [Event].
    - A method of the class is a computation of [M]: it reads and updates the
      tile and appends the calls it makes on its collaborators to a log.
    - What the tile reads from its surroundings when a method runs (the frame
      counter of the map view, the statistics switch, the current priority of a
      text element) is the [Env] passed to the method. *)

From stdpp Require Import gmap strings list fin_maps.
From Stdlib Require Import QArith Lqa.

Local Open Scope Z_scope.
Local Set Warnings "-register-all".

(** ** Collaborator types

    Value types whose content the tile never inspects. *)

Class ExternalTypes := {
  GeoBox : Type;
  OrientedBox3 : Type;
  TileKey : Type;
  Technique : Type;
  DecodedGeometry : Type;
  TextPathGeometry : Type;
  CopyrightInfo : Type;
  (** [new OrientedBox3()] *)
  OrientedBox3_new : OrientedBox3
}.

(** ** Objects with identity *)

Definition Texture := positive.
Definition BufferGeometry := positive.
Definition TextElement := positive.
Definition ITileLoader := positive.
Definition AnimatedExtrusionTileHandler := positive.

(** Calls the tile makes on objects it does not implement. *)
Inductive Event :=
  | GeometryDispose (geometry : BufferGeometry)
  | MaterialDispose (material : positive)
  | TextureDispose (texture : Texture)
  | TileLoaderCancel (loader : ITileLoader)
  | TileGeometryLoaderDispose (loader : positive)
  | AnimatedExtrusionDispose (handler : AnimatedExtrusionTileHandler)
  | StatsAddValue (name : string) (value : Z).

(** ** The scene graph of THREE.js, as far as the tile looks at it *)

Module THREE.

(** The value of one own property of a material: [undefined], a
    [THREE.Texture], or anything else. *)
Inductive MaterialProperty :=
  | PropUndefined
  | PropTexture (texture : Texture)
  | PropOther.

Record Material := {
  mat_uuid : positive;
  (** [Object.getOwnPropertyNames(material)] with the value of each name *)
  mat_properties : list (string * MaterialProperty)
}.

(** [material?: THREE.Material[] | THREE.Material] *)
Inductive MaterialSlot :=
  | SingleMaterial (material : Material)
  | MaterialArray (materials : list (option Material)).

Inductive Object3D :=
  | Obj (uuid : positive) (visible : bool) (geometry : option BufferGeometry)
        (material : option MaterialSlot) (children : list Object3D).

Definition visible (o : Object3D) : bool :=
  match o with Obj _ v _ _ _ => v end.
Definition geometry (o : Object3D) : option BufferGeometry :=
  match o with Obj _ _ g _ _ => g end.
Definition material (o : Object3D) : option MaterialSlot :=
  match o with Obj _ _ _ m _ => m end.
Definition children (o : Object3D) : list Object3D :=
  match o with Obj _ _ _ _ c => c end.

(** [Object3D.traverse(callback)]: the object itself, then each child's
    traversal, in order. The result lists the objects in the order the
    callback sees them. *)
Fixpoint traverse (o : Object3D) : list Object3D :=
  match o with
  | Obj _ _ _ _ cs => o :: flat_map traverse cs
  end.

End THREE.

Abbreviation TileObject := THREE.Object3D.

(** ** Size estimation of feature and road data *)

(** Minimum estimated size of a JS object. *)
Definition MINIMUM_SMALL_OBJECT_SIZE_ESTIMATION : Z := 16.
Definition MINIMUM_OBJECT_SIZE_ESTIMATION : Z := 100.

(** The length of a JavaScript array, as a number. *)
Definition len {A} (l : list A) : Z := Z.of_nat (length l).

Record TileFeatureData := {
  fd_ids : option (list (option Z));
  fd_starts : option (list Z);
  fd_objInfos : option (list (option positive))
}.

Definition getFeatureDataSize (featureData : TileFeatureData) : Z :=
  let numBytes := MINIMUM_OBJECT_SIZE_ESTIMATION in
  let numBytes :=
    match fd_ids featureData with
    | Some ids => numBytes + len ids * 8
    | None => numBytes
    end in
  let numBytes :=
    match fd_starts featureData with
    | Some starts => numBytes + len starts * 8
    | None => numBytes
    end in
  let numBytes :=
    match fd_objInfos featureData with
    | Some objInfos => numBytes + len objInfos * MINIMUM_SMALL_OBJECT_SIZE_ESTIMATION
    | None => numBytes
    end in
  numBytes.

Section Model.

Context `{ExternalTypes}.

(** The interface declares [ids] without [?], yet the size function tests it
    against [undefined]; both optional arrays are therefore options here. *)
Record RoadIntersectionData := {
  ids : option (list (option Z));
  techniqueIndex : list Z;
  starts : list Z;
  widths : list Z;
  positions : list Z;
  techniques : list Technique;
  objInfos : option (list (option positive))
}.

Definition getRoadIntersectionDataSize (intersectionData : RoadIntersectionData) : Z :=
  let numBytes := MINIMUM_OBJECT_SIZE_ESTIMATION in
  let bytesPerEntry := 8 + 8 + 8 + 8 + MINIMUM_OBJECT_SIZE_ESTIMATION in
  let numEntries := len (techniqueIndex intersectionData) in
  let numBytes := numBytes + len (techniqueIndex intersectionData) * bytesPerEntry in
  let numBytes :=
    if ids intersectionData is Some _ then numBytes + numEntries * 8 else numBytes in
  let numBytes :=
    if objInfos intersectionData is Some _
    then numBytes + numEntries * MINIMUM_SMALL_OBJECT_SIZE_ESTIMATION
    else numBytes in
  numBytes.

(** ** Loader contract and decoded content *)

Inductive TileLoaderState :=
  Initialized | Loading | Loaded | Decoding | Ready | Canceled | Failed.

(** What the tile reads of its geometry loader. *)
Record TileGeometryLoader := {
  tgl_id : positive;
  tgl_basicGeometryLoaded : bool;
  tgl_allGeometryLoaded : bool;
  tgl_isFinished : bool
}.

Record TileInfo := { numBytes : Z }.

Record DecodedTile := {
  dt_techniques : list Technique;
  dt_geometries : list DecodedGeometry;
  dt_boundingBox : option OrientedBox3;
  tileInfo : option TileInfo;
  decodeTime : option Z
}.

(** A default empty [DecodedTile], for tiles that must be rendered but do not
    have any objects. *)
Definition defaultEmptyDecodedTile : DecodedTile :=
  {| dt_techniques := []; dt_geometries := []; dt_boundingBox := None;
     tileInfo := None; decodeTime := None |}.

Record TileResourceInfo := {
  heapSize : Z;
  gpuSize : Z;
  num3dObjects : Z;
  numTextElements : Z;
  numUserTextElements : Z
}.

(** The accumulator [{ heapSize, gpuSize }] handed to the object estimator. *)
Record MemoryUsage := { mu_heapSize : Z; mu_gpuSize : Z }.

(** ** GroupedPriorityList *)

(** Modelled from the spec: the group type of [GroupedPriorityList] is not
    among the sources. A group is the bucket of one priority value; the tile
    reads the [elements] of every entry of the map [groups]. *)
Record PriorityListGroup := {
  priority : Z;
  elements : list TextElement
}.

Abbreviation GroupedPriorityList := (gmap Z PriorityListGroup).

(** [array.splice(array.indexOf(x), 1)] for an [x] that occurs. *)
Fixpoint remove_first (x : TextElement) (l : list TextElement) : list TextElement :=
  match l with
  | [] => []
  | y :: l' => if decide (x = y) then l' else y :: remove_first x l'
  end.

(** Modelled from the spec: class [GroupedPriorityList] of the utilities
    package is not among the sources. [add] appends to the bucket of the
    element's priority and creates the bucket if absent; the element's
    priority is read when the call is made. *)
Definition gpl_add (prio : Z) (element : TextElement)
    (l : GroupedPriorityList) : GroupedPriorityList :=
  let group := default {| priority := prio; elements := [] |} (l !! prio) in
  <[prio := {| priority := priority group; elements := elements group ++ [element] |}]> l.

(** Modelled from the spec: [GroupedPriorityList.remove] looks for the bucket
    of the element's priority at removal time and scans it for the element by
    identity; it answers [false] when the bucket or the element is not found. *)
Definition gpl_remove (prio : Z) (element : TextElement)
    (l : GroupedPriorityList) : bool * GroupedPriorityList :=
  match l !! prio with
  | None => (false, l)
  | Some group =>
      if decide (element ∈ elements group)
      then (true, <[prio := {| priority := priority group;
                               elements := remove_first element (elements group) |}]> l)
      else (false, l)
  end.

(** Modelled from the spec: [GroupedPriorityList.clear] drops all groups. *)
Definition gpl_clear (l : GroupedPriorityList) : GroupedPriorityList := ∅.

(** ** The tile *)

Record DataSource := {
  (** [getTilingScheme().getGeoBox(tileKey)] *)
  ds_getGeoBox : TileKey → GeoBox;
  (** [projection.projectBox(geoBox, result)] *)
  ds_projectBox : GeoBox → OrientedBox3 → OrientedBox3
}.

Record Tile := {
  objects : list TileObject;
  dependencies : list string;
  geoBox : GeoBox;
  boundingBox : OrientedBox3;
  roadIntersectionData : option RoadIntersectionData;
  copyrightInfo : option (list CopyrightInfo);
  frameNumLastRequested : Z;
  frameNumVisible : Z;
  frameNumLastVisible : Z;
  numFramesVisible : Z;
  visibilityCounter : Z;
  preparedTextPaths : option (list TextPathGeometry);
  m_disposed : bool;
  m_localTangentSpace : bool;
  m_forceHasGeometry : option bool;
  m_tileLoader : option ITileLoader;
  m_decodedTile : option DecodedTile;
  m_tileGeometryLoader : option TileGeometryLoader;
  m_userTextElements : list TextElement;
  m_textElementGroups : GroupedPriorityList;
  m_placedTextElements : GroupedPriorityList;
  m_textElementsChanged : bool;
  m_visibleArea : Z;
  m_resourceInfo : option TileResourceInfo;
  m_ownedTextures : gset Texture;
  m_animatedExtrusionTileHandler : option AnimatedExtrusionTileHandler;
  dataSource : DataSource;
  tileKey : TileKey;
  offset : Z
}.

(** Field assignments. *)

Definition set_objects (v : list TileObject) (t : Tile) : Tile :=
  Build_Tile v t.(dependencies) t.(geoBox) t.(boundingBox) t.(roadIntersectionData)
    t.(copyrightInfo) t.(frameNumLastRequested) t.(frameNumVisible) t.(frameNumLastVisible)
    t.(numFramesVisible) t.(visibilityCounter) t.(preparedTextPaths) t.(m_disposed)
    t.(m_localTangentSpace) t.(m_forceHasGeometry) t.(m_tileLoader) t.(m_decodedTile)
    t.(m_tileGeometryLoader) t.(m_userTextElements) t.(m_textElementGroups)
    t.(m_placedTextElements) t.(m_textElementsChanged) t.(m_visibleArea) t.(m_resourceInfo)
    t.(m_ownedTextures) t.(m_animatedExtrusionTileHandler) t.(dataSource) t.(tileKey) t.(offset).

Definition set_boundingBox (v : OrientedBox3) (t : Tile) : Tile :=
  Build_Tile t.(objects) t.(dependencies) t.(geoBox) v t.(roadIntersectionData)
    t.(copyrightInfo) t.(frameNumLastRequested) t.(frameNumVisible) t.(frameNumLastVisible)
    t.(numFramesVisible) t.(visibilityCounter) t.(preparedTextPaths) t.(m_disposed)
    t.(m_localTangentSpace) t.(m_forceHasGeometry) t.(m_tileLoader) t.(m_decodedTile)
    t.(m_tileGeometryLoader) t.(m_userTextElements) t.(m_textElementGroups)
    t.(m_placedTextElements) t.(m_textElementsChanged) t.(m_visibleArea) t.(m_resourceInfo)
    t.(m_ownedTextures) t.(m_animatedExtrusionTileHandler) t.(dataSource) t.(tileKey) t.(offset).

Definition set_roadIntersectionData (v : option RoadIntersectionData) (t : Tile) : Tile :=
  Build_Tile t.(objects) t.(dependencies) t.(geoBox) t.(boundingBox) v t.(copyrightInfo)
    t.(frameNumLastRequested) t.(frameNumVisible) t.(frameNumLastVisible) t.(numFramesVisible)
    t.(visibilityCounter) t.(preparedTextPaths) t.(m_disposed) t.(m_localTangentSpace)
    t.(m_forceHasGeometry) t.(m_tileLoader) t.(m_decodedTile) t.(m_tileGeometryLoader)
    t.(m_userTextElements) t.(m_textElementGroups) t.(m_placedTextElements)
    t.(m_textElementsChanged) t.(m_visibleArea) t.(m_resourceInfo) t.(m_ownedTextures)
    t.(m_animatedExtrusionTileHandler) t.(dataSource) t.(tileKey) t.(offset).

Definition set_frameNumLastRequested (v : Z) (t : Tile) : Tile :=
  Build_Tile t.(objects) t.(dependencies) t.(geoBox) t.(boundingBox) t.(roadIntersectionData)
    t.(copyrightInfo) v t.(frameNumVisible) t.(frameNumLastVisible) t.(numFramesVisible)
    t.(visibilityCounter) t.(preparedTextPaths) t.(m_disposed) t.(m_localTangentSpace)
    t.(m_forceHasGeometry) t.(m_tileLoader) t.(m_decodedTile) t.(m_tileGeometryLoader)
    t.(m_userTextElements) t.(m_textElementGroups) t.(m_placedTextElements)
    t.(m_textElementsChanged) t.(m_visibleArea) t.(m_resourceInfo) t.(m_ownedTextures)
    t.(m_animatedExtrusionTileHandler) t.(dataSource) t.(tileKey) t.(offset).

Definition set_preparedTextPaths (v : option (list TextPathGeometry)) (t : Tile) : Tile :=
  Build_Tile t.(objects) t.(dependencies) t.(geoBox) t.(boundingBox) t.(roadIntersectionData)
    t.(copyrightInfo) t.(frameNumLastRequested) t.(frameNumVisible) t.(frameNumLastVisible)
    t.(numFramesVisible) t.(visibilityCounter) v t.(m_disposed) t.(m_localTangentSpace)
    t.(m_forceHasGeometry) t.(m_tileLoader) t.(m_decodedTile) t.(m_tileGeometryLoader)
    t.(m_userTextElements) t.(m_textElementGroups) t.(m_placedTextElements)
    t.(m_textElementsChanged) t.(m_visibleArea) t.(m_resourceInfo) t.(m_ownedTextures)
    t.(m_animatedExtrusionTileHandler) t.(dataSource) t.(tileKey) t.(offset).

Definition set_m_disposed (v : bool) (t : Tile) : Tile :=
  Build_Tile t.(objects) t.(dependencies) t.(geoBox) t.(boundingBox) t.(roadIntersectionData)
    t.(copyrightInfo) t.(frameNumLastRequested) t.(frameNumVisible) t.(frameNumLastVisible)
    t.(numFramesVisible) t.(visibilityCounter) t.(preparedTextPaths) v t.(m_localTangentSpace)
    t.(m_forceHasGeometry) t.(m_tileLoader) t.(m_decodedTile) t.(m_tileGeometryLoader)
    t.(m_userTextElements) t.(m_textElementGroups) t.(m_placedTextElements)
    t.(m_textElementsChanged) t.(m_visibleArea) t.(m_resourceInfo) t.(m_ownedTextures)
    t.(m_animatedExtrusionTileHandler) t.(dataSource) t.(tileKey) t.(offset).

Definition set_m_forceHasGeometry (v : option bool) (t : Tile) : Tile :=
  Build_Tile t.(objects) t.(dependencies) t.(geoBox) t.(boundingBox) t.(roadIntersectionData)
    t.(copyrightInfo) t.(frameNumLastRequested) t.(frameNumVisible) t.(frameNumLastVisible)
    t.(numFramesVisible) t.(visibilityCounter) t.(preparedTextPaths) t.(m_disposed)
    t.(m_localTangentSpace) v t.(m_tileLoader) t.(m_decodedTile) t.(m_tileGeometryLoader)
    t.(m_userTextElements) t.(m_textElementGroups) t.(m_placedTextElements)
    t.(m_textElementsChanged) t.(m_visibleArea) t.(m_resourceInfo) t.(m_ownedTextures)
    t.(m_animatedExtrusionTileHandler) t.(dataSource) t.(tileKey) t.(offset).

Definition set_m_tileLoader (v : option ITileLoader) (t : Tile) : Tile :=
  Build_Tile t.(objects) t.(dependencies) t.(geoBox) t.(boundingBox) t.(roadIntersectionData)
    t.(copyrightInfo) t.(frameNumLastRequested) t.(frameNumVisible) t.(frameNumLastVisible)
    t.(numFramesVisible) t.(visibilityCounter) t.(preparedTextPaths) t.(m_disposed)
    t.(m_localTangentSpace) t.(m_forceHasGeometry) v t.(m_decodedTile) t.(m_tileGeometryLoader)
    t.(m_userTextElements) t.(m_textElementGroups) t.(m_placedTextElements)
    t.(m_textElementsChanged) t.(m_visibleArea) t.(m_resourceInfo) t.(m_ownedTextures)
    t.(m_animatedExtrusionTileHandler) t.(dataSource) t.(tileKey) t.(offset).

Definition set_m_decodedTile (v : option DecodedTile) (t : Tile) : Tile :=
  Build_Tile t.(objects) t.(dependencies) t.(geoBox) t.(boundingBox) t.(roadIntersectionData)
    t.(copyrightInfo) t.(frameNumLastRequested) t.(frameNumVisible) t.(frameNumLastVisible)
    t.(numFramesVisible) t.(visibilityCounter) t.(preparedTextPaths) t.(m_disposed)
    t.(m_localTangentSpace) t.(m_forceHasGeometry) t.(m_tileLoader) v t.(m_tileGeometryLoader)
    t.(m_userTextElements) t.(m_textElementGroups) t.(m_placedTextElements)
    t.(m_textElementsChanged) t.(m_visibleArea) t.(m_resourceInfo) t.(m_ownedTextures)
    t.(m_animatedExtrusionTileHandler) t.(dataSource) t.(tileKey) t.(offset).

Definition set_m_tileGeometryLoader (v : option TileGeometryLoader) (t : Tile) : Tile :=
  Build_Tile t.(objects) t.(dependencies) t.(geoBox) t.(boundingBox) t.(roadIntersectionData)
    t.(copyrightInfo) t.(frameNumLastRequested) t.(frameNumVisible) t.(frameNumLastVisible)
    t.(numFramesVisible) t.(visibilityCounter) t.(preparedTextPaths) t.(m_disposed)
    t.(m_localTangentSpace) t.(m_forceHasGeometry) t.(m_tileLoader) t.(m_decodedTile) v
    t.(m_userTextElements) t.(m_textElementGroups) t.(m_placedTextElements)
    t.(m_textElementsChanged) t.(m_visibleArea) t.(m_resourceInfo) t.(m_ownedTextures)
    t.(m_animatedExtrusionTileHandler) t.(dataSource) t.(tileKey) t.(offset).

Definition set_m_userTextElements (v : list TextElement) (t : Tile) : Tile :=
  Build_Tile t.(objects) t.(dependencies) t.(geoBox) t.(boundingBox) t.(roadIntersectionData)
    t.(copyrightInfo) t.(frameNumLastRequested) t.(frameNumVisible) t.(frameNumLastVisible)
    t.(numFramesVisible) t.(visibilityCounter) t.(preparedTextPaths) t.(m_disposed)
    t.(m_localTangentSpace) t.(m_forceHasGeometry) t.(m_tileLoader) t.(m_decodedTile)
    t.(m_tileGeometryLoader) v t.(m_textElementGroups) t.(m_placedTextElements)
    t.(m_textElementsChanged) t.(m_visibleArea) t.(m_resourceInfo) t.(m_ownedTextures)
    t.(m_animatedExtrusionTileHandler) t.(dataSource) t.(tileKey) t.(offset).

Definition set_m_textElementGroups (v : GroupedPriorityList) (t : Tile) : Tile :=
  Build_Tile t.(objects) t.(dependencies) t.(geoBox) t.(boundingBox) t.(roadIntersectionData)
    t.(copyrightInfo) t.(frameNumLastRequested) t.(frameNumVisible) t.(frameNumLastVisible)
    t.(numFramesVisible) t.(visibilityCounter) t.(preparedTextPaths) t.(m_disposed)
    t.(m_localTangentSpace) t.(m_forceHasGeometry) t.(m_tileLoader) t.(m_decodedTile)
    t.(m_tileGeometryLoader) t.(m_userTextElements) v t.(m_placedTextElements)
    t.(m_textElementsChanged) t.(m_visibleArea) t.(m_resourceInfo) t.(m_ownedTextures)
    t.(m_animatedExtrusionTileHandler) t.(dataSource) t.(tileKey) t.(offset).

Definition set_m_placedTextElements (v : GroupedPriorityList) (t : Tile) : Tile :=
  Build_Tile t.(objects) t.(dependencies) t.(geoBox) t.(boundingBox) t.(roadIntersectionData)
    t.(copyrightInfo) t.(frameNumLastRequested) t.(frameNumVisible) t.(frameNumLastVisible)
    t.(numFramesVisible) t.(visibilityCounter) t.(preparedTextPaths) t.(m_disposed)
    t.(m_localTangentSpace) t.(m_forceHasGeometry) t.(m_tileLoader) t.(m_decodedTile)
    t.(m_tileGeometryLoader) t.(m_userTextElements) t.(m_textElementGroups) v
    t.(m_textElementsChanged) t.(m_visibleArea) t.(m_resourceInfo) t.(m_ownedTextures)
    t.(m_animatedExtrusionTileHandler) t.(dataSource) t.(tileKey) t.(offset).

Definition set_m_textElementsChanged (v : bool) (t : Tile) : Tile :=
  Build_Tile t.(objects) t.(dependencies) t.(geoBox) t.(boundingBox) t.(roadIntersectionData)
    t.(copyrightInfo) t.(frameNumLastRequested) t.(frameNumVisible) t.(frameNumLastVisible)
    t.(numFramesVisible) t.(visibilityCounter) t.(preparedTextPaths) t.(m_disposed)
    t.(m_localTangentSpace) t.(m_forceHasGeometry) t.(m_tileLoader) t.(m_decodedTile)
    t.(m_tileGeometryLoader) t.(m_userTextElements) t.(m_textElementGroups)
    t.(m_placedTextElements) v t.(m_visibleArea) t.(m_resourceInfo) t.(m_ownedTextures)
    t.(m_animatedExtrusionTileHandler) t.(dataSource) t.(tileKey) t.(offset).

Definition set_m_resourceInfo (v : option TileResourceInfo) (t : Tile) : Tile :=
  Build_Tile t.(objects) t.(dependencies) t.(geoBox) t.(boundingBox) t.(roadIntersectionData)
    t.(copyrightInfo) t.(frameNumLastRequested) t.(frameNumVisible) t.(frameNumLastVisible)
    t.(numFramesVisible) t.(visibilityCounter) t.(preparedTextPaths) t.(m_disposed)
    t.(m_localTangentSpace) t.(m_forceHasGeometry) t.(m_tileLoader) t.(m_decodedTile)
    t.(m_tileGeometryLoader) t.(m_userTextElements) t.(m_textElementGroups)
    t.(m_placedTextElements) t.(m_textElementsChanged) t.(m_visibleArea) v t.(m_ownedTextures)
    t.(m_animatedExtrusionTileHandler) t.(dataSource) t.(tileKey) t.(offset).

Definition set_m_ownedTextures (v : gset Texture) (t : Tile) : Tile :=
  Build_Tile t.(objects) t.(dependencies) t.(geoBox) t.(boundingBox) t.(roadIntersectionData)
    t.(copyrightInfo) t.(frameNumLastRequested) t.(frameNumVisible) t.(frameNumLastVisible)
    t.(numFramesVisible) t.(visibilityCounter) t.(preparedTextPaths) t.(m_disposed)
    t.(m_localTangentSpace) t.(m_forceHasGeometry) t.(m_tileLoader) t.(m_decodedTile)
    t.(m_tileGeometryLoader) t.(m_userTextElements) t.(m_textElementGroups)
    t.(m_placedTextElements) t.(m_textElementsChanged) t.(m_visibleArea) t.(m_resourceInfo) v
    t.(m_animatedExtrusionTileHandler) t.(dataSource) t.(tileKey) t.(offset).

(** ** Surroundings and effects *)

(** What a method reads outside the tile when it runs. *)
Record Env := {
  (** [dataSource.mapView.frameNumber] *)
  frameNumber : Z;
  (** [PerformanceStatistics.instance.enabled] *)
  statsEnabled : bool;
  (** [textElement.priority], a field callers may reassign at any time *)
  currentPriority : TextElement → Z
}.

(** A method: from the tile before the call to the returned value, the tile
    after it and the calls made on collaborators, in order. *)
Definition M (A : Type) : Type := Tile → A * Tile * list Event.

#[export] Instance M_ret : MRet M := λ A a t, (a, t, []).
#[export] Instance M_bind : MBind M := λ A B f m t,
  let '(a, t1, e1) := m t in
  let '(b, t2, e2) := f a t1 in
  (b, t2, e1 ++ e2).

Definition this : M Tile := λ t, (t, t, []).
Definition assign (f : Tile → Tile) : M unit := λ t, ((), f t, []).
Definition call (e : Event) : M unit := λ t, ((), t, [e]).
Definition skip : M unit := mret ().

Fixpoint forEach {A} (l : list A) (callback : A → M unit) : M unit :=
  match l with
  | [] => skip
  | x :: l' => callback x;; forEach l' callback
  end.

(** Projections of a finished call. *)
Definition result {A} (r : A * Tile * list Event) : A := r.1.1.
Definition after {A} (r : A * Tile * list Event) : Tile := r.1.2.
Definition calls {A} (r : A * Tile * list Event) : list Event := r.2.

(** ** Collaborator code the tile calls into *)

Class Collaborators := {
  (** [MapViewUtils.estimateObject3dSize(object, size, visitedObjects)] updates
      the accumulator and the map of visited uuids it is given. *)
  estimateObject3dSize :
    TileObject → MemoryUsage → gmap string bool → MemoryUsage * gmap string bool;
  (** [dataSource.mapView.pickHandler.registerTile(tile)] *)
  registerTile : Tile → option RoadIntersectionData
}.

Context `{!Collaborators}.

(** Modelled from the spec: [OrientedBox3.copy] of the geometry package is not
    among the sources; the receiving box takes the value of the other box. *)
Definition OrientedBox3_copy (receiver other : OrientedBox3) : OrientedBox3 := other.

(** ** class Tile *)

Definition Tile_new (dataSource : DataSource) (tileKey : TileKey)
    (offset : option Z) (localTangentSpace : option bool) : Tile :=
  let geoBox := ds_getGeoBox dataSource tileKey in
  {| objects := [];
     dependencies := [];
     geoBox := geoBox;
     boundingBox := ds_projectBox dataSource geoBox OrientedBox3_new;
     roadIntersectionData := None;
     copyrightInfo := None;
     frameNumLastRequested := -1;
     frameNumVisible := -1;
     frameNumLastVisible := -1;
     numFramesVisible := 0;
     visibilityCounter := -1;
     preparedTextPaths := None;
     m_disposed := false;
     m_localTangentSpace := default false localTangentSpace;
     m_forceHasGeometry := None;
     m_tileLoader := None;
     m_decodedTile := None;
     m_tileGeometryLoader := None;
     m_userTextElements := [];
     m_textElementGroups := ∅;
     m_placedTextElements := ∅;
     m_textElementsChanged := false;
     m_visibleArea := 0;
     m_resourceInfo := None;
     m_ownedTextures := ∅;
     m_animatedExtrusionTileHandler := None;
     dataSource := dataSource;
     tileKey := tileKey;
     offset := default 0 offset |}.

(** [get isVisible]: tiles are not evaluated as invisible until the second
    frame they aren't requested. *)
Definition isVisible (env : Env) (t : Tile) : bool :=
  bool_decide (frameNumLastRequested t >= frameNumber env - 1).

(** [set isVisible] *)
Definition set_isVisible (env : Env) (visible : bool) : M unit :=
  assign (set_frameNumLastRequested (if visible then frameNumber env else -1)).

Definition invalidateResourceInfo : M unit :=
  assign (set_m_resourceInfo None).

Definition computeResourceInfo : M unit :=
  t ← this;
  let heapSize := 0 in
  let '(num3dObjects, aggregatedObjSize, visitedObjects) :=
    foldl (λ '(num3dObjects, size, visited) object,
             let num3dObjects :=
               if THREE.visible object then num3dObjects + 1 else num3dObjects in
             let '(size, visited) := estimateObject3dSize object size visited in
             (num3dObjects, size, visited))
          (0, {| mu_heapSize := 0; mu_gpuSize := 0 |}, ∅) (objects t) in
  let numTextElements :=
    map_fold (λ _ group n, n + len (elements group)) 0 (m_textElementGroups t) in
  let numUserTextElements := len (m_userTextElements t) in
  let heapSize := heapSize + (numTextElements + numUserTextElements) * 312 in
  let aggregatedObjSize :=
    match m_decodedTile t with
    | Some decodedTile =>
        match tileInfo decodedTile with
        | Some info =>
            {| mu_heapSize := mu_heapSize aggregatedObjSize + numBytes info;
               mu_gpuSize := mu_gpuSize aggregatedObjSize |}
        | None => aggregatedObjSize
        end
    | None => aggregatedObjSize
    end in
  let heapSize :=
    match roadIntersectionData t with
    | Some data => heapSize + getRoadIntersectionDataSize data
    | None => heapSize
    end in
  assign (set_m_resourceInfo (Some
    {| heapSize := mu_heapSize aggregatedObjSize + heapSize;
       gpuSize := mu_gpuSize aggregatedObjSize;
       num3dObjects := num3dObjects;
       numTextElements := numTextElements;
       numUserTextElements := numUserTextElements |})).

(** The source returns [this.m_resourceInfo!]; the assertion is erased when the
    code runs, so the method hands back the cell as it is after the check. *)
Definition getResourceInfo : M (option TileResourceInfo) :=
  t ← this;
  (if m_resourceInfo t is None then computeResourceInfo else skip);;
  t ← this;
  mret (m_resourceInfo t).

(** [get memoryUsage] *)
Definition memoryUsage : M (option Z) :=
  t ← this;
  (if m_resourceInfo t is None then computeResourceInfo else skip);;
  t ← this;
  mret (heapSize <$> m_resourceInfo t).

Definition addOwnedTexture (texture : Texture) : M unit :=
  assign (λ t, set_m_ownedTextures (m_ownedTextures t ∪ {[texture]}) t).

Definition addUserTextElement (textElement : TextElement) : M unit :=
  assign (λ t, set_m_userTextElements (m_userTextElements t ++ [textElement]) t);;
  assign (set_m_textElementsChanged true).

Definition removeUserTextElement (textElement : TextElement) : M bool :=
  t ← this;
  if decide (textElement ∈ m_userTextElements t) then
    assign (set_m_userTextElements (remove_first textElement (m_userTextElements t)));;
    assign (set_m_textElementsChanged true);;
    mret true
  else mret false.

Definition addTextElement (env : Env) (textElement : TextElement) : M unit :=
  assign (λ t, set_m_textElementGroups
                 (gpl_add (currentPriority env textElement) textElement
                    (m_textElementGroups t)) t);;
  assign (set_m_textElementsChanged true).

Definition removeTextElement (env : Env) (textElement : TextElement) : M bool :=
  t ← this;
  let '(removed, groups) :=
    gpl_remove (currentPriority env textElement) textElement (m_textElementGroups t) in
  assign (set_m_textElementGroups groups);;
  if removed then
    assign (set_m_textElementsChanged true);;
    mret true
  else mret false.

Definition prepareTileInfo (env : Env) : M unit :=
  t ← this;
  match m_decodedTile t with
  | None => skip
  | Some decodedTile =>
      if m_disposed t || negb (isVisible env t) then skip
      else if tileInfo decodedTile is Some _
           then assign (set_roadIntersectionData (registerTile t))
           else skip
  end.

Definition setDecodedTile (env : Env) (decodedTile : DecodedTile) : M unit :=
  assign (set_m_decodedTile (Some decodedTile));;
  (if dt_boundingBox decodedTile is Some box
   then assign (λ t, set_boundingBox (OrientedBox3_copy (boundingBox t) box) t)
   else skip);;
  invalidateResourceInfo;;
  (if statsEnabled env then
     if decodeTime decodedTile is Some time
     then call (StatsAddValue "decode.decodingTime" time)
     else skip
   else skip).

Definition removeDecodedTile : M unit :=
  assign (set_m_decodedTile None);;
  invalidateResourceInfo.

Definition shouldDisposeObjectGeometry (t : Tile) (object : TileObject) : bool := true.

Definition shouldDisposeObjectMaterial (t : Tile) (object : TileObject) : bool := true.

Definition shouldDisposeTexture (t : Tile) (texture : Texture) : bool :=
  bool_decide (texture ∈ m_ownedTextures t).

Definition disposed (t : Tile) : bool := m_disposed t.

(** [get hasGeometry] *)
Definition hasGeometry (t : Tile) : bool :=
  match m_forceHasGeometry t with
  | None => negb (bool_decide (length (objects t) = 0%nat))
  | Some forced => forced
  end.

(** [get basicGeometryLoaded] *)
Definition basicGeometryLoaded (t : Tile) : bool :=
  match m_tileGeometryLoader t with
  | None => hasGeometry t
  | Some loader => tgl_basicGeometryLoaded loader || tgl_isFinished loader
  end.

(** [get allGeometryLoaded] *)
Definition allGeometryLoaded (t : Tile) : bool :=
  match m_tileGeometryLoader t with
  | None => hasGeometry t
  | Some loader => tgl_allGeometryLoaded loader || tgl_isFinished loader
  end.

Definition forceHasGeometry (env : Env) (value : bool) : M unit :=
  (if value then setDecodedTile env defaultEmptyDecodedTile else skip);;
  assign (set_m_forceHasGeometry (Some value)).

(** The two closures of [clear]. *)
Definition disposeMaterial (material : THREE.Material) : M unit :=
  forEach (THREE.mat_properties material) (λ '(property, materialProperty),
    match materialProperty with
    | THREE.PropTexture texture =>
        t ← this;
        if shouldDisposeTexture t texture then call (TextureDispose texture) else skip
    | _ => skip
    end);;
  call (MaterialDispose (THREE.mat_uuid material)).

Definition disposeObject (object : TileObject) : M unit :=
  t ← this;
  match THREE.geometry object with
  | Some geometry =>
      if shouldDisposeObjectGeometry t object then call (GeometryDispose geometry) else skip
  | None => skip
  end;;
  match THREE.material object with
  | Some slot =>
      if shouldDisposeObjectMaterial t object then
        match slot with
        | THREE.MaterialArray materials =>
            forEach materials (λ material,
              if material is Some material then disposeMaterial material else skip)
        | THREE.SingleMaterial material => disposeMaterial material
        end
      else skip
  | None => skip
  end.

Definition clear : M unit :=
  t ← this;
  forEach (objects t) (λ rootObject,
    forEach (THREE.traverse rootObject) disposeObject;;
    disposeObject rootObject);;
  assign (set_objects []);;
  (if preparedTextPaths t is Some _ then assign (set_preparedTextPaths (Some [])) else skip);;
  (if m_animatedExtrusionTileHandler t is Some handler
   then call (AnimatedExtrusionDispose handler) else skip);;
  assign (λ t, set_m_placedTextElements (gpl_clear (m_placedTextElements t)) t);;
  assign (λ t, set_m_textElementGroups (gpl_clear (m_textElementGroups t)) t);;
  assign (set_m_userTextElements []);;
  invalidateResourceInfo.

Definition dispose : M unit :=
  t ← this;
  if m_disposed t then skip
  else
    (if m_tileLoader t is Some loader
     then call (TileLoaderCancel loader);; assign (set_m_tileLoader None)
     else skip);;
    (if m_tileGeometryLoader t is Some loader
     then call (TileGeometryLoaderDispose (tgl_id loader));;
          assign (set_m_tileGeometryLoader None)
     else skip);;
    clear;;
    assign (set_m_userTextElements []);;
    assign (set_m_disposed true);;
    assign (set_frameNumLastRequested 0).


(** ** Notions the properties are stated with *)

(** The materials an object refers to. *)
Definition materialsOf (object : TileObject) : list THREE.Material :=
  match THREE.material object with
  | Some (THREE.SingleMaterial material) => [material]
  | Some (THREE.MaterialArray materials) => omap id materials
  | None => []
  end.

(** The textures among the own properties of a material. *)
Definition texturesOf (material : THREE.Material) : list Texture :=
  omap (λ entry, if entry.2 is THREE.PropTexture texture then Some texture else None)
       (THREE.mat_properties material).

(** Every object of the tile: the roots and all their descendants. *)
Definition reachableObjects (t : Tile) : list TileObject :=
  flat_map THREE.traverse (objects t).

(** The textures that sit in a property of a material of an object of the tile. *)
Definition reachableTextures (t : Tile) : list Texture :=
  flat_map (λ object, flat_map texturesOf (materialsOf object)) (reachableObjects t).

(** The calls [disposeMaterial] and [disposeObject] make, as plain lists. *)
Definition materialCalls (t : Tile) (material : THREE.Material) : list Event :=
  flat_map (λ entry,
      match entry.2 with
      | THREE.PropTexture texture =>
          if shouldDisposeTexture t texture then [TextureDispose texture] else []
      | _ => []
      end) (THREE.mat_properties material)
  ++ [MaterialDispose (THREE.mat_uuid material)].

Definition objectCalls (t : Tile) (object : TileObject) : list Event :=
  (if THREE.geometry object is Some geometry then [GeometryDispose geometry] else [])
  ++ flat_map (materialCalls t) (materialsOf object).

(** The tile [clear] leaves behind. *)
Definition cleared (t : Tile) : Tile :=
  let t1 := set_objects [] t in
  let t2 := if preparedTextPaths t is Some _ then set_preparedTextPaths (Some []) t1 else t1 in
  set_m_resourceInfo None
    (set_m_userTextElements []
       (set_m_textElementGroups ∅ (set_m_placedTextElements ∅ t2))).

(** The calls of [clear]: every root is traversed, then visited once more. *)
Definition clearCalls (t : Tile) : list Event :=
  flat_map (λ rootObject,
      flat_map (objectCalls t) (THREE.traverse rootObject) ++ objectCalls t rootObject)
    (objects t)
  ++ (if m_animatedExtrusionTileHandler t is Some handler
      then [AnimatedExtrusionDispose handler] else []).

(** The tile once [dispose] has let go of its two loaders, and the calls made
    on them. *)
Definition detached (t : Tile) : Tile :=
  let t1 := if m_tileLoader t is Some _ then set_m_tileLoader None t else t in
  if m_tileGeometryLoader t1 is Some _ then set_m_tileGeometryLoader None t1 else t1.

Definition detachCalls (t : Tile) : list Event :=
  (if m_tileLoader t is Some loader then [TileLoaderCancel loader] else [])
  ++ (if m_tileGeometryLoader t is Some loader
      then [TileGeometryLoaderDispose (tgl_id loader)] else []).

(** The ledger a recomputation yields for a tile. *)
Definition ledger (t : Tile) : option TileResourceInfo :=
  m_resourceInfo (after (computeResourceInfo t)).

(** The estimator run over all objects of a tile, whatever their flags. *)
Definition estimateAll (objs : list TileObject) : MemoryUsage * gmap string bool :=
  foldl (λ '(size, visited) object, estimateObject3dSize object size visited)
        ({| mu_heapSize := 0; mu_gpuSize := 0 |}, ∅) objs.

(** The number of data-driven labels, summed over the groups. *)
Definition countTextElements (groups : gmap Z PriorityListGroup) : Z :=
  map_fold (λ _ group n, n + len (elements group)) 0 groups.

(** Bytes the ledger adds for decoded content and for road data. *)
Definition tileInfoBytes (decoded : option DecodedTile) : Z :=
  match decoded with
  | Some decodedTile => if tileInfo decodedTile is Some info then numBytes info else 0
  | None => 0
  end.

Definition roadBytes (road : option RoadIntersectionData) : Z :=
  if road is Some data then getRoadIntersectionDataSize data else 0.

(** Histories of the data-driven label collection. [labelled log env t] holds
    when [t] results from a fresh tile by calls of the class and reassignments
    of priorities, [env] being the surroundings at the end and [log] the
    insertions made, each with the priority the element had when inserted. *)
Inductive labelled : list (TextElement * Z) → Env → Tile → Prop :=
  | labelled_new env ds key off lts :
      labelled [] env (Tile_new ds key off lts)
  | labelled_add log env t e :
      labelled log env t →
      labelled ((e, currentPriority env e) :: log) env (after (addTextElement env e t))
  | labelled_remove log env t e :
      labelled log env t →
      labelled log env (after (removeTextElement env e t))
  | labelled_clear log env t :
      labelled log env t → labelled log env (after (clear t))
  | labelled_dispose log env t :
      labelled log env t → labelled log env (after (dispose t))
  | labelled_surroundings log env env' t :
      labelled log env t → labelled log env' t
  | labelled_other log env t t' :
      labelled log env t →
      m_textElementGroups t' = m_textElementGroups t →
      labelled log env t'.

End Model.

(** * A concrete world

    Collaborators chosen once, to run the methods on actual tiles. *)

Module Demo.

#[export] Instance demoTypes : ExternalTypes := {|
  GeoBox := Z;
  OrientedBox3 := Z;
  TileKey := Z;
  Technique := unit;
  DecodedGeometry := unit;
  TextPathGeometry := unit;
  CopyrightInfo := unit;
  OrientedBox3_new := 0
|}.

(** The estimator: every object costs a fixed amount of heap and of GPU
    memory. *)
Definition flatEstimate (object : TileObject) (size : MemoryUsage)
    (visited : gmap string bool) : MemoryUsage * gmap string bool :=
  ({| mu_heapSize := mu_heapSize size + 1000; mu_gpuSize := mu_gpuSize size + 2000 |},
   visited).

Definition oneRoad : RoadIntersectionData :=
  {| ids := Some [Some 7]; techniqueIndex := [0]; starts := [0]; widths := [3];
     positions := [0; 0]; techniques := [()]; objInfos := None |}.

(** A pick handler that finds one road in every tile. *)
Definition pickOneRoad (t : Tile) : option RoadIntersectionData := Some oneRoad.

#[export] Instance demoCollaborators : Collaborators :=
  {| estimateObject3dSize := flatEstimate; registerTile := pickOneRoad |}.

Definition source : DataSource :=
  {| ds_getGeoBox := λ key, key; ds_projectBox := λ box _, box + 1 |}.

Definition atFrame (n : Z) : Env :=
  {| frameNumber := n; statsEnabled := true; currentPriority := λ _, 5 |}.

Definition withPriority (p : Z) : Env :=
  {| frameNumber := 1; statsEnabled := false; currentPriority := λ _, p |}.

Definition decodedWithInfo : DecodedTile :=
  {| dt_techniques := []; dt_geometries := []; dt_boundingBox := None;
     tileInfo := Some {| numBytes := 64 |}; decodeTime := Some 3 |}.

(** A tile that was constructed, received decoded content with a tile info,
    was requested in frame 4 and then prepared for picking. *)
Definition requested : Tile :=
  after (set_isVisible (atFrame 4) true
    (after (setDecodedTile (atFrame 4) decodedWithInfo (Tile_new source 11 None None)))).

Definition roadTile : Tile := after (prepareTileInfo (atFrame 4) requested).

Definition disposedRoadTile : Tile := after (dispose roadTile).

(** The same tile when its ledger is read before it is prepared for picking. *)
Definition readTile : Tile := after (getResourceInfo requested).
Definition preparedAfterRead : Tile :=
  after (prepareTileInfo (atFrame 4) readTile).

Definition forcedTile : Tile := after (forceHasGeometry (atFrame 4) true requested).

(** A tile with one label, inserted while its priority was 5. *)
Definition labelledOnce : Tile :=
  after (addTextElement (withPriority 5) 1%positive (Tile_new source 11 None None)).

(** Decoded content that brings its own bounding box. *)
Definition decodedWithBox : DecodedTile :=
  {| dt_techniques := []; dt_geometries := []; dt_boundingBox := Some 77;
     tileInfo := None; decodeTime := None |}.

(** A mesh whose material refers to texture 7 in its [map] property. *)
Definition texturedMesh : TileObject :=
  THREE.Obj 1%positive true (Some 21%positive)
    (Some (THREE.SingleMaterial
       {| THREE.mat_uuid := 31%positive;
          THREE.mat_properties :=
            [("color", THREE.PropOther); ("map", THREE.PropTexture 7%positive);
             ("alphaMap", THREE.PropUndefined)] |}))
    [].

Definition tileB : Tile := set_objects [texturedMesh] (Tile_new source 12 None None).
Definition tileA : Tile := after (addOwnedTexture 7%positive tileB).

End Demo.

(** * The data source for the poles

    Shallow embedding of class [PolarTileDataSource]. Latitudes and longitudes
    are rationals: the class only compares them, negates them and selects one
    of two with [Math.max] and [Math.min], and on finite numbers these
    operations are exact. *)

Module Polar.

Section Model.

Context `{ExternalTypes}.

(** The two environments [setStyleSet] asks the style-set evaluator about:
    [kind: "north_pole"] and [kind: "south_pole"] of layer [earth]. *)
Inductive PoleKind := north_pole | south_pole.

(** Code and data of other packages the class relies on. *)
Class PolarCollaborators := {
  StyleSet : Type;
  Vector3 : Type;
  (** [geoBox.north], [.south], [.east], [.west] *)
  north : GeoBox → Q;
  south : GeoBox → Q;
  east : GeoBox → Q;
  west : GeoBox → Q;
  (** [tileKey.level] *)
  level : TileKey → Z;
  (** [polarTilingScheme.getGeoBox(tileKey)] *)
  polarTilingScheme_getGeoBox : TileKey → GeoBox;
  (** [MathUtils.radToDeg(MercatorProjection.MAXIMUM_LATITUDE)] *)
  MAXIMUM_LATITUDE_degrees : Q;
  (** [new StyleSetEvaluator(styleSet).getMatchingTechniques(env)] *)
  getMatchingTechniques : StyleSet → PoleKind → list Technique;
  (** [createMaterial({ technique, level })] *)
  createMaterial : Technique → Z → option THREE.Material;
  (** [this.projection.projectBox(geoBox, result)] *)
  projectBox : GeoBox → OrientedBox3 → OrientedBox3;
  (** [this.projection.projectPoint(point, new THREE.Vector3())] *)
  projectPoint : Q * Q → Vector3;
  (** [a.sub(b)] *)
  sub : Vector3 → Vector3 → Vector3;
  (** [boundingBox.position] *)
  position : OrientedBox3 → Vector3
}.

Context `{!PolarCollaborators}.

Record PolarTileDataSource := {
  m_maxLatitude : Q;
  m_styleSetEvaluator : option StyleSet;
  m_northPoleMaterial : option THREE.Material;
  m_southPoleMaterial : option THREE.Material;
  cacheable : bool
}.

(** What the tile sees of this data source: [getTilingScheme()] answers the
    polar tiling scheme. *)
Definition asDataSource (p : PolarTileDataSource) : DataSource :=
  {| ds_getGeoBox := polarTilingScheme_getGeoBox; ds_projectBox := projectBox |}.

(** A call of the data source: on a scene object, or [mapView.markTilesDirty]. *)
Inductive SourceEvent :=
  | ObjectCall (e : Event)
  | MarkTilesDirty.

(** The constructor; the arguments only reach the base class. *)
Definition PolarTileDataSource_new : PolarTileDataSource :=
  {| m_maxLatitude := MAXIMUM_LATITUDE_degrees;
     m_styleSetEvaluator := None;
     m_northPoleMaterial := None;
     m_southPoleMaterial := None;
     cacheable := false |}.

Definition dispose (p : PolarTileDataSource) : PolarTileDataSource * list Event :=
  let '(p, e1) :=
    match m_northPoleMaterial p with
    | Some material =>
        ({| m_maxLatitude := m_maxLatitude p;
            m_styleSetEvaluator := m_styleSetEvaluator p;
            m_northPoleMaterial := None;
            m_southPoleMaterial := m_southPoleMaterial p;
            cacheable := cacheable p |},
         [MaterialDispose (THREE.mat_uuid material)])
    | None => (p, [])
    end in
  let '(p, e2) :=
    match m_southPoleMaterial p with
    | Some material =>
        ({| m_maxLatitude := m_maxLatitude p;
            m_styleSetEvaluator := m_styleSetEvaluator p;
            m_northPoleMaterial := m_northPoleMaterial p;
            m_southPoleMaterial := None;
            cacheable := cacheable p |},
         [MaterialDispose (THREE.mat_uuid material)])
    | None => (p, [])
    end in
  let p :=
    if m_styleSetEvaluator p is Some _ then
      {| m_maxLatitude := m_maxLatitude p;
         m_styleSetEvaluator := None;
         m_northPoleMaterial := m_northPoleMaterial p;
         m_southPoleMaterial := m_southPoleMaterial p;
         cacheable := cacheable p |}
    else p in
  (p, e1 ++ e2).

Definition setStyleSet (styleSet : option StyleSet) (p : PolarTileDataSource)
    : PolarTileDataSource * list SourceEvent :=
  let '(p, disposals) := dispose p in
  let p :=
    match styleSet with
    | Some styleSet =>
        let p :=
          {| m_maxLatitude := m_maxLatitude p;
             m_styleSetEvaluator := Some styleSet;
             m_northPoleMaterial := m_northPoleMaterial p;
             m_southPoleMaterial := m_southPoleMaterial p;
             cacheable := cacheable p |} in
        let p :=
          match getMatchingTechniques styleSet north_pole with
          | northTechnique :: _ =>
              {| m_maxLatitude := m_maxLatitude p;
                 m_styleSetEvaluator := m_styleSetEvaluator p;
                 m_northPoleMaterial := createMaterial northTechnique 1;
                 m_southPoleMaterial := m_southPoleMaterial p;
                 cacheable := cacheable p |}
          | [] => p
          end in
        match getMatchingTechniques styleSet south_pole with
        | southTechnique :: _ =>
            {| m_maxLatitude := m_maxLatitude p;
               m_styleSetEvaluator := m_styleSetEvaluator p;
               m_northPoleMaterial := m_northPoleMaterial p;
               m_southPoleMaterial := createMaterial southTechnique 1;
               cacheable := cacheable p |}
        | [] => p
        end
    | None => p
    end in
  (p, (ObjectCall <$> disposals) ++ [MarkTilesDirty]).

(** [a > b] and [a >= b] on numbers. *)
Definition gt (a b : Q) : bool := negb (Qle_bool a b).
Definition ge (a b : Q) : bool := Qle_bool b a.

Definition Math_max (a b : Q) : Q := if Qle_bool a b then b else a.
Definition Math_min (a b : Q) : Q := if Qle_bool a b then a else b.

Definition shouldRender (p : PolarTileDataSource) (zoomLevel : Z) (tileKey : TileKey)
    : bool :=
  if negb (zoomLevel =? level tileKey)%Z || (level tileKey <? 2)%Z then false
  else
    let box := polarTilingScheme_getGeoBox tileKey in
    gt (north box) (m_maxLatitude p) || gt (- m_maxLatitude p) (south box).

(** The [THREE.Geometry] that [createTileGeometry] fills before it converts it
    into the buffer geometry of the mesh. *)
Record PoleGeometry := {
  vertices : list Vector3;
  faces : list (Z * Z * Z)
}.

(** Identities of the three objects a call of [createTileGeometry] creates:
    the scratch geometry, the buffer geometry and the mesh. *)
Record NewObjects := {
  new_scratch : BufferGeometry;
  new_geometry : BufferGeometry;
  new_mesh : positive
}.

(** [new THREE.Mesh(geometry, material)]: visible, without children. *)
Definition Mesh (uuid : positive) (geometry : BufferGeometry)
    (material : THREE.Material) : TileObject :=
  THREE.Obj uuid true (Some geometry) (Some (THREE.SingleMaterial material)) [].

(** The method returns nothing; the value of the computation is the content of
    the scratch geometry when a mesh is made, since the scene graph of the
    model keeps geometries by identity only. *)
Definition createTileGeometry (p : PolarTileDataSource) (fresh : NewObjects)
    : M (option PoleGeometry) :=
  tile ← this;
  let box := geoBox tile in
  let isNorthPole := gt (north box) 0 && ge (south box) 0 in
  match (if isNorthPole then m_northPoleMaterial p else m_southPoleMaterial p) with
  | None => mret None
  | Some material =>
      let maxLat := m_maxLatitude p in
      let limitedNorth :=
        if isNorthPole then Math_max (north box) maxLat
        else Math_min (north box) (- maxLat) in
      let limitedSouth :=
        if isNorthPole then Math_max (south box) maxLat
        else Math_min (south box) (- maxLat) in
      if ge limitedSouth limitedNorth then mret None
      else
        let points :=
          [(limitedSouth, west box); (limitedSouth, east box);
           (limitedNorth, west box); (limitedNorth, east box)] in
        let g :=
          {| vertices :=
               (λ point, sub (projectPoint point) (position (boundingBox tile)))
               <$> points;
             faces := [(0, 1, 2); (2, 1, 3)]%Z |} in
        call (GeometryDispose (new_scratch fresh));;
        let mesh := Mesh (new_mesh fresh) (new_geometry fresh) material in
        assign (λ t, set_objects (objects t ++ [mesh]) t);;
        mret (Some g)
  end.

Definition getTile (p : PolarTileDataSource) (fresh : NewObjects) (tileKey : TileKey)
    : option PoleGeometry * Tile * list Event :=
  let tile := Tile_new (asDataSource p) tileKey None None in
  createTileGeometry p fresh tile.

(** The pole a geo box is drawn for, as [createTileGeometry] decides it. *)
Definition isNorthPole (box : GeoBox) : Prop := (0 < north box ∧ 0 <= south box)%Q.

End Model.

End Polar.

(** * The tile-info emitter of the OMV data source

    Shallow embedding of class [OmvTileInfoEmitter]. The emitter hands every
    feature on to an [ExtendedTileInfoWriter], which is not part of the class:
    the state of the emitter is the sequence of calls it has made on the
    writer since construction. *)

Module OmvTileInfoEmitter.

(** A method either returns or throws an [Error] with a message. *)
Inductive Outcome (A : Type) :=
  | Returned (a : A)
  | Thrown (message : string).

Arguments Returned {A} a.
Arguments Thrown {A} message.

Section Model.

(** Types of other packages. *)
Class EmitterTypes := {
  IndexedTechnique : Type;
  MapEnv : Type;
  (** a value of a [MapEnv], and the numbers among the values *)
  Value : Type;
  number : Z → Value;
  (** [THREE.Vector2] *)
  Vector2 : Type;
  (** the type of [Ring.winding], compared with [===] *)
  Winding : Type;
  Winding_eq_dec :: EqDecision Winding
}.

Context `{EmitterTypes}.

(** [m_tileInfo.pointGroup], [.lineGroup], [.polygonGroup] *)
Inductive FeatureGroup := pointGroup | lineGroup | polygonGroup.

(** The calls on [m_tileInfoWriter], with their arguments. *)
Inductive WriterCall :=
  | addTechnique (technique : IndexedTechnique)
  | addFeature (group : FeatureGroup) (technique : IndexedTechnique) (env : MapEnv)
      (featureId : option Z) (infoTileTechniqueIndex : Z) (isPolygonGroup : bool)
  | addFeaturePoint (group : FeatureGroup) (x y : Z)
  | addFeaturePoints (group : FeatureGroup) (points : list Z)
  | addRoadSegments (group : FeatureGroup) (segmentId startOffset endOffset : Value)
  | addRingPoints (group : FeatureGroup) (contour : list Z) (isOuterRing : bool)
  | finish.

(** Code of other packages. *)
Class EmitterCollaborators := {
  (** the number [addTechnique(technique)] returns, given the calls the writer
      has received before *)
  addTechnique_returns : list WriterCall → IndexedTechnique → Z;
  (** [env.lookup(name)] *)
  MapEnv_lookup : MapEnv → string → option Value;
  (** [new Ring(vertexStride, contour).winding] *)
  ring_winding : Z → list Z → Winding
}.

Context `{!EmitterCollaborators}.

Record ILineGeometry := { positions : list Vector2 }.

(** [IPolygonGeometry]: rings, each an outline with its positions. *)
Record IPolygonGeometry := { rings : list ILineGeometry }.

(** [new Ring(vertexStride, contour)] *)
Record Ring := { vertexStride : Z; contour : list Z }.

Definition winding (ring : Ring) : Winding :=
  ring_winding (vertexStride ring) (contour ring).

Record Emitter := {
  m_storeExtendedTags : bool;
  m_gatherRoadSegments : bool;
  m_languages : option (list string);
  (** the calls made on [m_tileInfoWriter] so far, oldest first *)
  written : list WriterCall
}.

Definition Emitter_new (storeExtendedTags gatherRoadSegments : bool)
    (languages : option (list string)) : Emitter :=
  {| m_storeExtendedTags := storeExtendedTags;
     m_gatherRoadSegments := gatherRoadSegments;
     m_languages := languages;
     written := [] |}.

Definition write (calls : list WriterCall) (e : Emitter) : Emitter :=
  {| m_storeExtendedTags := m_storeExtendedTags e;
     m_gatherRoadSegments := m_gatherRoadSegments e;
     m_languages := m_languages e;
     written := written e ++ calls |}.

(** The loop [for (const technique of techniques)] of the three methods:
    undefined entries are skipped; for the others the technique is added and
    [body], given the technique and the index the writer returned, lists the
    calls of the rest of the iteration. *)
Definition forTechniques (techniques : list (option IndexedTechnique))
    (body : IndexedTechnique → Z → list WriterCall) (e : Emitter) : Emitter :=
  foldl (λ e technique,
      match technique with
      | None => e
      | Some technique =>
          let infoTileTechniqueIndex := addTechnique_returns (written e) technique in
          write (body technique infoTileTechniqueIndex) (write [addTechnique technique] e)
      end) e techniques.

Definition processPointFeature (layer : string) (extents : Z) (geometry : list Vector2)
    (env : MapEnv) (techniques : list (option IndexedTechnique)) (featureId : option Z)
    (e : Emitter) : Emitter :=
  forTechniques techniques (λ technique infoTileTechniqueIndex,
    flat_map (λ pos,
      let x := 0 in
      let y := 0 in
      [addFeature pointGroup technique env featureId infoTileTechniqueIndex false;
       addFeaturePoint pointGroup x y]) geometry) e.

Definition processLineFeature (layer : string) (extents : Z)
    (geometry : list ILineGeometry) (env : MapEnv)
    (techniques : list (option IndexedTechnique)) (featureId : option Z)
    (e : Emitter) : Emitter :=
  let lines := (λ polyline, flat_map (λ pos, [0; 0]) (positions polyline)) <$> geometry in
  let e :=
    forTechniques techniques (λ technique infoTileTechniqueIndex,
      flat_map (λ aLine,
        [addFeature lineGroup technique env featureId infoTileTechniqueIndex false;
         addFeaturePoints lineGroup aLine]) lines) e in
  if m_gatherRoadSegments e then
    match MapEnv_lookup env "segmentId" with
    | Some segmentId =>
        let startOffset := MapEnv_lookup env "startOffset" in
        let endOffset := MapEnv_lookup env "endOffset" in
        write [addRoadSegments lineGroup segmentId
                 (default (number 0) startOffset) (default (number 1) endOffset)] e
    | None => e
    end
  else e.

Definition processPolygonFeature (layer : string) (extents : Z)
    (geometry : list IPolygonGeometry) (env : MapEnv)
    (techniques : list (option IndexedTechnique)) (featureId : option Z)
    (e : Emitter) : Outcome Emitter :=
  if bool_decide (length techniques = 0%nat) then
    Thrown "OmvTileInfoEmitter#processPolygonFeature: Internal error - No technique index"
  else
    let polygons :=
      (λ polygon,
         (λ outline,
            {| vertexStride := 3;
               contour := flat_map (λ pos, [0; 0; 0]) (positions outline) |})
         <$> rings polygon) <$> geometry in
    let e :=
      forTechniques techniques (λ technique infoTileTechniqueIndex,
        [addFeature polygonGroup technique env featureId infoTileTechniqueIndex true]) e in
    Returned
      (foldl (λ e rings,
          match rings with
          | [] => e
          | first :: _ =>
              let outerRingWinding := winding first in
              write ((λ aRing,
                        addRingPoints polygonGroup (contour aRing)
                          (bool_decide (winding aRing = outerRingWinding)))
                     <$> rings) e
          end) e polygons).

(** [getTileInfo()] finishes the writer; what it returns is the tile info the
    calls so far have written. *)
Definition getTileInfo (e : Emitter) : Emitter := write [finish] e.

(** The calls a method added to those the writer had received before. *)
Definition added (before after : Emitter) : list WriterCall :=
  drop (length (written before)) (written after).

(** The techniques of a list that are not [undefined]. *)
Definition defined (techniques : list (option IndexedTechnique)) : list IndexedTechnique :=
  omap id techniques.

Definition isAddFeature (c : WriterCall) : bool :=
  if c is addFeature _ _ _ _ _ _ then true else false.
Definition isAddTechnique (c : WriterCall) : bool :=
  if c is addTechnique _ then true else false.
Definition isAddRingPoints (c : WriterCall) : bool :=
  if c is addRingPoints _ _ _ then true else false.
Definition isAddRoadSegments (c : WriterCall) : bool :=
  if c is addRoadSegments _ _ _ _ then true else false.

Definition count (p : WriterCall → bool) (calls : list WriterCall) : nat :=
  length (filter (λ c, p c = true) calls).

End Model.

End OmvTileInfoEmitter.

(** * Concrete collaborators for the pole data source and the emitter *)

Module PolarDemo.

Import Demo.

(** Geo boxes are numbered: box 1 spans the latitudes 80 to 90, every other
    box the latitudes -90 to -80; the latitude limit is 85 degrees. *)
#[export] Instance polarCollaborators : Polar.PolarCollaborators := {|
  Polar.StyleSet := unit;
  Polar.Vector3 := Q * Q;
  Polar.north := λ box, if (box =? 1)%Z then 90%Q else (-80)%Q;
  Polar.south := λ box, if (box =? 1)%Z then 80%Q else (-90)%Q;
  Polar.east := λ _, 180%Q;
  Polar.west := λ _, (-180)%Q;
  Polar.level := λ _, 2;
  Polar.polarTilingScheme_getGeoBox := λ key, key;
  Polar.MAXIMUM_LATITUDE_degrees := 85%Q;
  Polar.getMatchingTechniques := λ _ _, [()];
  Polar.createMaterial := λ _ _,
    Some {| THREE.mat_uuid := 41%positive;
            THREE.mat_properties := [("map", THREE.PropTexture 9%positive)] |};
  Polar.projectBox := λ box _, box;
  Polar.projectPoint := λ point, point;
  Polar.sub := λ a _, a;
  Polar.position := λ _, (0%Q, 0%Q)
|}.

(** A data source that was given a style set. *)
Definition styled : Polar.PolarTileDataSource :=
  (Polar.setStyleSet (Some ()) Polar.PolarTileDataSource_new).1.

Definition fresh : Polar.NewObjects :=
  {| Polar.new_scratch := 51%positive; Polar.new_geometry := 52%positive;
     Polar.new_mesh := 53%positive |}.

Definition northTile : Tile := Tile_new (Polar.asDataSource styled) 1 None None.

Definition northQuad : Polar.PoleGeometry :=
  {| Polar.vertices := [(85%Q, (-180)%Q); (85%Q, 180%Q); (90%Q, (-180)%Q); (90%Q, 180%Q)];
     Polar.faces := [(0, 1, 2); (2, 1, 3)] |}.

End PolarDemo.

Module EmitterDemo.

Import OmvTileInfoEmitter.

#[export] Instance emitterTypes : EmitterTypes := {|
  IndexedTechnique := Z;
  MapEnv := bool;
  Value := Z;
  number := λ n, n;
  Vector2 := unit;
  Winding := bool
|}.

(** A writer that numbers the techniques in the order it receives them, an
    environment that defines [segmentId] when it is [true], and rings that all
    wind the same way. *)
#[export] Instance emitterCollaborators : EmitterCollaborators := {|
  addTechnique_returns := λ calls _, Z.of_nat (count isAddTechnique calls);
  MapEnv_lookup := λ env name,
    if (env : bool) then (if String.eqb name "segmentId" then Some 7 else None)
    else None;
  ring_winding := λ _ _, false
|}.

Definition twoRings : IPolygonGeometry :=
  {| rings := [ {| positions := [(); (); ()] |}; {| positions := [(); ()] |} ] |}.

Definition emptyEmitter : Emitter := Emitter_new false true None.

(** The emitter after one polygon with an undefined and a defined technique. *)
Definition afterPolygon : Emitter :=
  match processPolygonFeature "water" 4096 [twoRings] true [None; Some 5] (Some 12)
          emptyEmitter with
  | Returned e => e
  | Thrown _ => emptyEmitter
  end.

End EmitterDemo.

Module MoreDemo.

Import Demo.

(** A road record of the same shape as [oneRoad] with other contents. *)
Definition otherRoad : RoadIntersectionData :=
  {| ids := Some [None]; techniqueIndex := [4]; starts := [8; 9]; widths := [];
     positions := [1; 2; 3; 4; 5; 6]; techniques := []; objInfos := None |}.

End MoreDemo.

(** * Properties *)

Section Properties.

Context `{ExternalTypes} `{!Collaborators}.

(** ** Running methods *)

(** Unfolds the plumbing of [M] in the goal. *)
Ltac run := cbv [mbind M_bind mret M_ret this assign call skip]; cbn beta iota.

Lemma bind_run {A B} (m : M A) (f : A → M B) (t : Tile) :
  (m ≫= f) t =
  let '(a, t1, e1) := m t in let '(b, t2, e2) := f a t1 in (b, t2, e1 ++ e2).
Proof. reflexivity. Qed.

(** A loop whose body leaves the tile alone leaves it alone, and its calls are
    those of the bodies in order. *)
Lemma forEach_calls {A} (body : A → M unit) (log : A → list Event) (t : Tile) l :
  (∀ x, body x t = ((), t, log x)) →
  forEach l body t = ((), t, flat_map log l).
Proof.
  intros Hbody. induction l as [|x l IH]; [done|].
  cbn [forEach flat_map]. rewrite bind_run, Hbody, IH. done.
Qed.

Lemma disposeMaterial_run t material :
  disposeMaterial material t = ((), t, materialCalls t material).
Proof.
  unfold disposeMaterial, materialCalls. rewrite bind_run.
  erewrite forEach_calls; [reflexivity|].
  intros [property value]. destruct value as [|texture|]; cbn; try done.
  run. by destruct (shouldDisposeTexture t texture).
Qed.

Lemma disposeObject_run t object :
  disposeObject object t = ((), t, objectCalls t object).
Proof.
  unfold disposeObject, objectCalls, materialsOf.
  destruct object as [uuid vis geo mat cs]; cbn [THREE.geometry THREE.material].
  rewrite bind_run; cbn. rewrite bind_run.
  assert (Hmat : ∀ slot : option THREE.Material,
    (if slot is Some material then disposeMaterial material else skip) t
    = ((), t, flat_map (materialCalls t) (from_option (λ m, [m]) [] slot))).
  { intros [m|]; cbn; [|done]. rewrite disposeMaterial_run. by rewrite app_nil_r. }
  destruct geo as [g|], mat as [[m|ms]|]; cbn;
    rewrite ?disposeMaterial_run, ?app_nil_r; try done.
  all: erewrite (forEach_calls _ _ t ms) by apply Hmat.
  all: f_equal; try f_equal.
  all: clear; induction ms as [|[m|] ms IH]; cbn; rewrite ?app_nil_r, ?IH; done.
Qed.

Lemma clear_run t : clear t = ((), cleared t, clearCalls t).
Proof.
  unfold clear, clearCalls. rewrite bind_run; cbn [this]. rewrite bind_run.
  erewrite forEach_calls; cycle 1.
  { intros root. rewrite bind_run.
    erewrite forEach_calls by apply disposeObject_run.
    rewrite disposeObject_run. reflexivity. }
  unfold cleared, invalidateResourceInfo, gpl_clear.
  destruct (preparedTextPaths t), (m_animatedExtrusionTileHandler t); run;
    by rewrite ?app_nil_r.
Qed.

Lemma dispose_run t :
  dispose t =
  if m_disposed t then ((), t, [])
  else ((), set_frameNumLastRequested 0
              (set_m_disposed true (set_m_userTextElements [] (cleared (detached t)))),
        detachCalls t ++ clearCalls (detached t)).
Proof.
  unfold dispose. rewrite bind_run; cbn [this].
  destruct (m_disposed t) eqn:Hd; [done|].
  rewrite !bind_run.
  unfold detached, detachCalls.
  destruct (m_tileLoader t) as [l|] eqn:Hl, (m_tileGeometryLoader t) as [g|] eqn:Hg;
    cbn [m_tileGeometryLoader set_m_tileLoader]; rewrite ?Hg.
  all: run; rewrite ?Hg; run; rewrite clear_run; run; by rewrite ?app_nil_r.
Qed.

(** ** Visibility *)

Lemma set_isVisible_stamp env visible t :
  frameNumLastRequested (after (set_isVisible env visible t))
  = if visible then frameNumber env else -1.
Proof. reflexivity. Qed.

(** C1. A tile last requested at frame [f >= 0] is visible while the map view
    is at frame [f] or [f + 1], and is not visible at any frame from [f + 2]
    on, as long as the stamp is not renewed. *)
Theorem isVisible_grace_period env t f :
  0 ≤ f →
  frameNumLastRequested t = f →
  (frameNumber env = f ∨ frameNumber env = f + 1 → isVisible env t = true) ∧
  (f + 2 ≤ frameNumber env → isVisible env t = false).
Proof.
  intros Hf Hreq. unfold isVisible. rewrite Hreq. split.
  - intros Hnow. apply bool_decide_eq_true. lia.
  - intros Hlater. apply bool_decide_eq_false. lia.
Qed.

(** ** Decoded content and bounding box *)

(** C6. [setDecodedTile(D)] stores [D]; the bounding box afterwards is the box
    of [D] when [D] carries one and the box the tile had before otherwise; on a
    tile as constructed, the latter is the projection of its geo box. *)
Theorem setDecodedTile_boundingBox env t D ds key off lts :
  let t' := after (setDecodedTile env D t) in
  let fresh := Tile_new ds key off lts in
  m_decodedTile t' = Some D ∧
  match dt_boundingBox D with
  | Some box => boundingBox t' = box
  | None =>
      boundingBox t' = boundingBox t ∧
      boundingBox (after (setDecodedTile env D fresh))
      = ds_projectBox ds (ds_getGeoBox ds key) OrientedBox3_new
  end.
Proof.
  unfold setDecodedTile, invalidateResourceInfo, OrientedBox3_copy.
  destruct (dt_boundingBox D), (statsEnabled env), (decodeTime D); run; done.
Qed.

(** ** Geometry flags *)

(** C7. Without a geometry loader, [forceHasGeometry(true)] makes
    [hasGeometry], [allGeometryLoaded] and [basicGeometryLoaded] true and leaves
    the object sequence as it was; and while the flag was never forced, the
    three getters all say whether the object sequence is non-empty. *)
Theorem forceHasGeometry_flags env t :
  m_tileGeometryLoader t = None →
  (let t' := after (forceHasGeometry env true t) in
   hasGeometry t' = true ∧ allGeometryLoaded t' = true ∧
   basicGeometryLoaded t' = true ∧ objects t' = objects t) ∧
  (m_forceHasGeometry t = None →
   (hasGeometry t = true ↔ objects t ≠ []) ∧
   basicGeometryLoaded t = hasGeometry t ∧
   allGeometryLoaded t = hasGeometry t).
Proof.
  intros Hloader. split.
  - unfold forceHasGeometry, setDecodedTile, invalidateResourceInfo,
      allGeometryLoaded, basicGeometryLoaded, hasGeometry.
    destruct (statsEnabled env); run; cbn; rewrite Hloader; done.
  - intros Hforce. unfold basicGeometryLoaded, allGeometryLoaded.
    rewrite Hloader. split; [|done].
    unfold hasGeometry. rewrite Hforce.
    destruct (objects t) as [|o objs]; cbn; split; done.
Qed.

(** ** Road data in the ledger *)

Lemma computeResourceInfo_run t :
  ∃ info, computeResourceInfo t = ((), set_m_resourceInfo (Some info) t, []).
Proof.
  unfold computeResourceInfo. rewrite bind_run; cbn [this].
  destruct (foldl _ _ _) as [[n size] visited]. eexists. run. reflexivity.
Qed.

(** C8. The size of a road-intersection record with [n] technique-index
    entries is [100 + n * (8 + 8 + 8 + 8 + 100)], plus [n * 8] when [ids] is
    present and [n * 16] when [objInfos] is; and that is what the record adds to
    the heap size of a recomputed ledger. *)
Theorem getRoadIntersectionDataSize_formula (data : RoadIntersectionData) (t : Tile) :
  let n := len (techniqueIndex data) in
  getRoadIntersectionDataSize data
  = 100 + n * (8 + 8 + 8 + 8 + 100)
    + (if ids data is Some _ then n * 8 else 0)
    + (if objInfos data is Some _ then n * 16 else 0) ∧
  heapSize <$> ledger (set_roadIntersectionData (Some data) t)
  = (λ bytes, bytes + getRoadIntersectionDataSize data)
    <$> (heapSize <$> ledger (set_roadIntersectionData None t)).
Proof.
  split.
  - unfold getRoadIntersectionDataSize, MINIMUM_OBJECT_SIZE_ESTIMATION,
      MINIMUM_SMALL_OBJECT_SIZE_ESTIMATION.
    destruct (ids data), (objInfos data); lia.
  - unfold ledger, computeResourceInfo. rewrite !bind_run; cbn [this].
    cbn [objects set_roadIntersectionData m_textElementGroups m_userTextElements
         m_decodedTile roadIntersectionData].
    destruct (foldl _ _ _) as [[n' size] visited]. run. cbn.
    f_equal. lia.
Qed.

(** ** The resource ledger *)

Lemma object_loop objs : ∀ n size visited,
  foldl (λ '(num3dObjects, size, visited) object,
           let num3dObjects :=
             if THREE.visible object then num3dObjects + 1 else num3dObjects in
           let '(size, visited) := estimateObject3dSize object size visited in
           (num3dObjects, size, visited))
        (n, size, visited) objs
  = (n + len (filter (λ o, THREE.visible o = true) objs),
     (foldl (λ '(size, visited) object, estimateObject3dSize object size visited)
            (size, visited) objs).1,
     (foldl (λ '(size, visited) object, estimateObject3dSize object size visited)
            (size, visited) objs).2).
Proof.
  unfold len. induction objs as [|o objs IH]; intros n size visited.
  - cbn. f_equal. f_equal. lia.
  - cbn [foldl]. destruct (estimateObject3dSize o size visited) as [size' visited'] eqn:Ho.
    rewrite IH. rewrite filter_cons.
    destruct (THREE.visible o); cbn [decide_rel]; case_decide; try done;
      cbn [length]; f_equal; f_equal; lia.
Qed.

(** The recomputed ledger, field by field. *)
Lemma ledger_value t :
  ledger t = Some
    {| heapSize :=
         mu_heapSize (estimateAll (objects t)).1 + tileInfoBytes (m_decodedTile t)
         + ((countTextElements (m_textElementGroups t) + len (m_userTextElements t)) * 312
            + roadBytes (roadIntersectionData t));
       gpuSize := mu_gpuSize (estimateAll (objects t)).1;
       num3dObjects := len (filter (λ o, THREE.visible o = true) (objects t));
       numTextElements := countTextElements (m_textElementGroups t);
       numUserTextElements := len (m_userTextElements t) |}.
Proof.
  unfold ledger, computeResourceInfo. rewrite bind_run; cbn [this].
  rewrite object_loop. fold (estimateAll (objects t)).
  destruct (estimateAll (objects t)) as [size visited]. run. cbn.
  unfold tileInfoBytes, roadBytes, countTextElements.
  destruct (m_decodedTile t) as [d|]; [destruct (tileInfo d)|];
    destruct (roadIntersectionData t); cbn; f_equal; f_equal; lia.
Qed.

Lemma getResourceInfo_run t :
  getResourceInfo t =
  match m_resourceInfo t with
  | Some info => (Some info, t, [])
  | None => (ledger t, set_m_resourceInfo (ledger t) t, [])
  end.
Proof.
  unfold getResourceInfo, ledger. rewrite bind_run; cbn [this].
  destruct (m_resourceInfo t) as [info|] eqn:Hinfo.
  - run. by rewrite Hinfo.
  - rewrite bind_run. destruct (computeResourceInfo_run t) as [info ->]. run. done.
Qed.

(** A ledger asked for after an invalidation is computed from the tile as it
    is then. *)
Lemma getResourceInfo_fresh t :
  m_resourceInfo t = None → result (getResourceInfo t) = ledger t.
Proof. intros Hinv. rewrite getResourceInfo_run, Hinv. done. Qed.

Lemma ledger_ignores_cache t cache :
  ledger (set_m_resourceInfo cache t) = ledger t.
Proof. by rewrite !ledger_value. Qed.




(** C10. A recomputed ledger counts in [num3dObjects] the objects whose
    [visible] flag is set: with [k] objects of which [m] are not visible it
    reports [k - m]. The size estimator is nevertheless run over every object
    of the sequence. *)
Theorem num3dObjects_counts_visible t :
  ∃ info,
    result (getResourceInfo (after (invalidateResourceInfo t))) = Some info ∧
    num3dObjects info = len (filter (λ o, THREE.visible o = true) (objects t)) ∧
    num3dObjects info
    = len (objects t) - len (filter (λ o, THREE.visible o = false) (objects t)) ∧
    gpuSize info = mu_gpuSize (estimateAll (objects t)).1.
Proof.
  rewrite getResourceInfo_fresh by reflexivity.
  unfold invalidateResourceInfo, assign, after; cbn [fst snd].
  rewrite ledger_ignores_cache, ledger_value.
  eexists; split; [reflexivity|]. cbn. repeat split.
  unfold len. induction (objects t) as [|o objs IH]; [done|].
  rewrite !filter_cons. destruct (THREE.visible o); repeat case_decide; try done;
    cbn [length]; lia.
Qed.

(** ** Disposal *)

Lemma dispose_sets_flag t : m_disposed (after (dispose t)) = true.
Proof.
  rewrite dispose_run. destruct (m_disposed t) eqn:Hd; [exact Hd | reflexivity].
Qed.

(** C3. A second [dispose()] returns the tile of the first unchanged and
    calls nothing; in particular the resource ledger read afterwards is the
    same. *)
Theorem dispose_idempotent t :
  let once := after (dispose t) in
  dispose once = ((), once, []) ∧
  result (getResourceInfo (after (dispose once))) = result (getResourceInfo once).
Proof.
  cbn zeta.
  assert (Hagain : dispose (after (dispose t)) = ((), after (dispose t), [])).
  { rewrite (dispose_run (after (dispose t))), dispose_sets_flag. done. }
  split; [exact Hagain|]. by rewrite Hagain.
Qed.

(** What [dispose] leaves of a tile that was not disposed before. *)
Lemma dispose_after t :
  m_disposed t = false →
  after (dispose t)
  = set_frameNumLastRequested 0
      (set_m_disposed true (set_m_userTextElements [] (cleared (detached t)))).
Proof. intros Hd. rewrite dispose_run, Hd. reflexivity. Qed.

Lemma detached_keeps t :
  objects (detached t) = objects t ∧
  roadIntersectionData (detached t) = roadIntersectionData t ∧
  m_decodedTile (detached t) = m_decodedTile t ∧
  m_ownedTextures (detached t) = m_ownedTextures t ∧
  preparedTextPaths (detached t) = preparedTextPaths t ∧
  m_animatedExtrusionTileHandler (detached t) = m_animatedExtrusionTileHandler t.
Proof.
  unfold detached.
  destruct (m_tileLoader t) eqn:Hl; cbn;
    destruct (m_tileGeometryLoader t) eqn:Hg; cbn; done.
Qed.

Lemma cleared_keeps t :
  roadIntersectionData (cleared t) = roadIntersectionData t ∧
  m_decodedTile (cleared t) = m_decodedTile t.
Proof. unfold cleared. destruct (preparedTextPaths t); done. Qed.

(** C2, as the code has it. After [dispose()] has run on a tile that was not
    disposed, the flag is set, the object sequence, the user labels and both
    label collections are empty, and the ledger reports zero for [gpuSize],
    [num3dObjects], [numTextElements] and [numUserTextElements]. The
    road-intersection record and the decoded content stay as they were, and
    [heapSize] is what those two still account for: the bytes of the decoded
    tile info plus the size of the road record, zero when both are absent. *)
Theorem dispose_postcondition t :
  m_disposed t = false →
  let t' := after (dispose t) in
  disposed t' = true ∧
  objects t' = [] ∧
  m_userTextElements t' = [] ∧
  m_textElementGroups t' = ∅ ∧
  m_placedTextElements t' = ∅ ∧
  roadIntersectionData t' = roadIntersectionData t ∧
  m_decodedTile t' = m_decodedTile t ∧
  result (getResourceInfo t') = Some
    {| heapSize := tileInfoBytes (m_decodedTile t) + roadBytes (roadIntersectionData t);
       gpuSize := 0;
       num3dObjects := 0;
       numTextElements := 0;
       numUserTextElements := 0 |}.
Proof.
  intros Hd. cbn zeta. rewrite (dispose_after t Hd).
  destruct (detached_keeps t) as (_ & Hroad & Hdec & _).
  destruct (cleared_keeps (detached t)) as (Hroad' & Hdec').
  assert (Hshape : ∀ u,
    objects (cleared u) = [] ∧ m_userTextElements (cleared u) = [] ∧
    m_textElementGroups (cleared u) = ∅ ∧ m_placedTextElements (cleared u) = ∅ ∧
    m_resourceInfo (cleared u) = None).
  { intros u. unfold cleared. destruct (preparedTextPaths u); done. }
  destruct (Hshape (detached t)) as (Hobj & Husr & Hgrp & Hplc & Hres).
  split_and!;
    [ reflexivity | exact Hobj | reflexivity | exact Hgrp | exact Hplc
    | exact (eq_trans Hroad' Hroad) | exact (eq_trans Hdec' Hdec) | ].
  rewrite getResourceInfo_fresh by (cbn; exact Hres).
  rewrite ledger_value.
  cbn [objects m_decodedTile m_textElementGroups m_userTextElements roadIntersectionData
       set_frameNumLastRequested set_m_disposed set_m_userTextElements].
  rewrite Hobj, Hgrp, Hroad', Hdec', Hroad, Hdec.
  unfold countTextElements. rewrite map_fold_empty.
  cbn; f_equal; f_equal; lia.
Qed.

(** ** Textures *)

Lemma elem_of_flat_map {A B} (f : A → list B) (l : list A) (y : B) :
  y ∈ flat_map f l ↔ ∃ x, x ∈ l ∧ y ∈ f x.
Proof.
  rewrite list_elem_of_In, in_flat_map.
  split; intros (x & Hx & Hy); exists x; by rewrite ?list_elem_of_In in *.
Qed.

Lemma addOwnedTexture_registers t texture x :
  x ∈ m_ownedTextures (after (addOwnedTexture texture t))
  ↔ x = texture ∨ x ∈ m_ownedTextures t.
Proof. cbn. rewrite elem_of_union, elem_of_singleton. tauto. Qed.

Lemma Tile_new_owns_nothing ds key off lts x :
  x ∉ m_ownedTextures (Tile_new ds key off lts).
Proof. cbn. apply not_elem_of_empty. Qed.

Lemma materialCalls_texture t material x :
  TextureDispose x ∈ materialCalls t material
  ↔ x ∈ texturesOf material ∧ x ∈ m_ownedTextures t.
Proof.
  unfold materialCalls, texturesOf.
  rewrite elem_of_app, list_elem_of_singleton, elem_of_flat_map, list_elem_of_omap.
  split.
  - intros [([property value] & Hin & Hcall)|Hmat]; [|discriminate Hmat].
    cbn in Hcall. destruct value as [|texture|]; try by apply elem_of_nil in Hcall.
    unfold shouldDisposeTexture in Hcall. case_bool_decide as Hown.
    + apply list_elem_of_singleton in Hcall as [= ->].
      split; [|exact Hown]. by exists (property, THREE.PropTexture texture).
    + by apply elem_of_nil in Hcall.
  - intros [([property value] & Hin & Htex) Hown]. left.
    exists (property, value). split; [exact Hin|].
    cbn in *. destruct value as [|texture|]; try discriminate Htex.
    injection Htex as ->. unfold shouldDisposeTexture.
    rewrite bool_decide_eq_true_2 by exact Hown. by apply list_elem_of_singleton.
Qed.

Lemma objectCalls_texture t object x :
  TextureDispose x ∈ objectCalls t object
  ↔ x ∈ flat_map texturesOf (materialsOf object) ∧ x ∈ m_ownedTextures t.
Proof.
  unfold objectCalls. rewrite elem_of_app, !elem_of_flat_map.
  setoid_rewrite materialCalls_texture.
  split.
  - intros [Hgeo|(m & Hm & Htex & Hown)]; [|by eauto].
    destruct (THREE.geometry object); [|by apply elem_of_nil in Hgeo].
    by apply list_elem_of_singleton in Hgeo.
  - intros [(m & Hm & Htex) Hown]. right. eauto.
Qed.

Lemma clearCalls_texture t x :
  TextureDispose x ∈ clearCalls t
  ↔ x ∈ reachableTextures t ∧ x ∈ m_ownedTextures t.
Proof.
  unfold clearCalls, reachableTextures, reachableObjects.
  rewrite elem_of_app, !elem_of_flat_map. split.
  - intros [(root & Hroot & Hcall)|Hhandler].
    + apply elem_of_app in Hcall as [Hcall|Hcall].
      * apply elem_of_flat_map in Hcall as (o & Ho & Hcall).
        apply objectCalls_texture in Hcall as [Htex Hown].
        split; [|exact Hown]. exists o. split; [|exact Htex].
        apply elem_of_flat_map. eauto.
      * apply objectCalls_texture in Hcall as [Htex Hown].
        split; [|exact Hown]. exists root. split; [|exact Htex].
        apply elem_of_flat_map. exists root. split; [exact Hroot|].
        destruct root; cbn. by left.
    + destruct (m_animatedExtrusionTileHandler t); [|by apply elem_of_nil in Hhandler].
      by apply list_elem_of_singleton in Hhandler.
  - intros [(o & Ho & Htex) Hown]. left.
    apply elem_of_flat_map in Ho as (root & Hroot & Ho).
    exists root. split; [exact Hroot|].
    apply elem_of_app. left. apply elem_of_flat_map. exists o. split; [exact Ho|].
    by apply objectCalls_texture.
Qed.

(** C5. [clear()] calls [dispose] on a texture exactly when the texture sits in
    a property of a material of one of the tile's objects and was registered
    with the tile; [dispose()] does the same on a tile not yet disposed and
    calls nothing otherwise. A texture that was never registered with the tile
    is therefore not disposed by either. *)
Theorem texture_disposed_iff_owned t x :
  (TextureDispose x ∈ calls (clear t)
   ↔ x ∈ reachableTextures t ∧ x ∈ m_ownedTextures t) ∧
  (TextureDispose x ∈ calls (dispose t)
   ↔ m_disposed t = false ∧ x ∈ reachableTextures t ∧ x ∈ m_ownedTextures t).
Proof.
  split.
  - rewrite clear_run. apply clearCalls_texture.
  - rewrite dispose_run. destruct (m_disposed t) eqn:Hd; unfold calls; cbn [snd].
    + split; [by intros ?%elem_of_nil | by intros [? _]].
    + rewrite elem_of_app, clearCalls_texture.
      destruct (detached_keeps t) as (Hobj & _ & _ & Hown & _).
      unfold reachableTextures, reachableObjects. rewrite Hobj, Hown.
      split; [|by intros (_ & ? & ?); right].
      intros [Hdetach|[? ?]]; [|done].
      unfold detachCalls in Hdetach.
      destruct (m_tileLoader t), (m_tileGeometryLoader t); cbn in Hdetach;
        repeat (apply elem_of_cons in Hdetach as [Hdetach|Hdetach]; [discriminate|]);
        by apply elem_of_nil in Hdetach.
Qed.

(** ** Staleness of the ledger *)

(** [prepareTileInfo] stores the road record and leaves a cached ledger in
    place: the next [getResourceInfo()] answers with the snapshot taken before
    the record was stored. *)
Lemma prepareTileInfo_keeps_cache env t info decodedTile :
  m_resourceInfo t = Some info →
  m_decodedTile t = Some decodedTile →
  is_Some (tileInfo decodedTile) →
  m_disposed t = false →
  isVisible env t = true →
  let t' := after (prepareTileInfo env t) in
  roadIntersectionData t' = registerTile t ∧
  result (getResourceInfo t') = Some info.
Proof.
  intros Hinfo Hdec [ti Hti] Hd Hvis. cbn zeta.
  unfold prepareTileInfo. rewrite bind_run; cbn [this].
  rewrite Hdec, Hd, Hvis, Hti. run. split; [reflexivity|].
  rewrite getResourceInfo_run. cbn. by rewrite Hinfo.
Qed.

(** ** Labels *)

Lemma remove_first_subset x y l : y ∈ remove_first x l → y ∈ l.
Proof.
  induction l as [|z l IH]; cbn; [done|].
  case_decide; rewrite !elem_of_cons; [by right | intros [?|?]; auto].
Qed.

Lemma removeTextElement_groups env e t :
  m_textElementGroups (after (removeTextElement env e t))
  = (gpl_remove (currentPriority env e) e (m_textElementGroups t)).2.
Proof.
  unfold removeTextElement. rewrite bind_run; cbn [this].
  destruct (gpl_remove _ _ _) as [[] groups]; run; done.
Qed.

Lemma addTextElement_groups env e t :
  m_textElementGroups (after (addTextElement env e t))
  = gpl_add (currentPriority env e) e (m_textElementGroups t).
Proof. reflexivity. Qed.

(** Every element of a group was inserted under the priority of that group. *)
Lemma labelled_groups log env t :
  labelled log env t →
  ∀ k group e,
    m_textElementGroups t !! k = Some group → e ∈ elements group → (e, k) ∈ log.
Proof.
  induction 1 as [env ds key off lts | log env t e0 _ IH | log env t e0 _ IH
                 | log env t _ IH | log env t _ IH | log env env' t _ IH
                 | log env t t' _ IH Hsame]; intros k group e Hk He.
  - cbn in Hk. by rewrite lookup_empty in Hk.
  - rewrite addTextElement_groups in Hk. unfold gpl_add in Hk.
    destruct (decide (currentPriority env e0 = k)) as [<-|Hne].
    + rewrite lookup_insert_eq in Hk. injection Hk as <-. cbn in He.
      apply elem_of_app in He as [He|He].
      * right. destruct (m_textElementGroups t !! currentPriority env e0) eqn:Hold;
          cbn in He; [by eapply IH | by apply elem_of_nil in He].
      * apply list_elem_of_singleton in He as ->. by left.
    + rewrite lookup_insert_ne in Hk by done. right. by eapply IH.
  - rewrite removeTextElement_groups in Hk. unfold gpl_remove in Hk.
    destruct (m_textElementGroups t !! currentPriority env e0) as [old|] eqn:Hold;
      [|by eapply IH].
    case_decide; [|by eapply IH]. cbn in Hk.
    destruct (decide (currentPriority env e0 = k)) as [<-|Hne].
    + rewrite lookup_insert_eq in Hk. injection Hk as <-. cbn in He.
      eapply IH; [exact Hold|]. by eapply remove_first_subset.
    + rewrite lookup_insert_ne in Hk by done. by eapply IH.
  - rewrite clear_run in Hk. unfold cleared in Hk.
    destruct (preparedTextPaths t); cbn in Hk; by rewrite lookup_empty in Hk.
  - rewrite dispose_run in Hk. destruct (m_disposed t); [by eapply IH|].
    unfold cleared in Hk.
    destruct (preparedTextPaths (detached t)); cbn in Hk; by rewrite lookup_empty in Hk.
  - by eapply IH.
  - rewrite Hsame in Hk. by eapply IH.
Qed.

(** C9. Take a tile with any history of calls and an element whose current
    priority differs from the priority it had at each of its insertions.
    [removeTextElement] then returns [false], leaves the tile as it is (no
    group loses an element, [textElementsChanged] keeps its value) and calls
    nothing. *)
Theorem removeTextElement_stale_priority log env t e :
  labelled log env t →
  (∀ p, (e, p) ∈ log → p ≠ currentPriority env e) →
  removeTextElement env e t = (false, t, []).
Proof.
  intros Hhist Hstale.
  assert (Hmiss : gpl_remove (currentPriority env e) e (m_textElementGroups t)
                  = (false, m_textElementGroups t)).
  { unfold gpl_remove.
    destruct (m_textElementGroups t !! currentPriority env e) as [group|] eqn:Hgroup;
      [|done].
    case_decide as Hin; [|done].
    exfalso. eapply Hstale; [|reflexivity].
    eapply labelled_groups; eauto. }
  unfold removeTextElement. rewrite bind_run; cbn [this]. rewrite Hmiss. run.
  by destruct t.
Qed.

End Properties.

(** * The properties at work *)

Import Demo.

(** C1 at a tile requested in frame 4 and looked at in frame 5. *)
Lemma isVisible_grace_period_witness :
  0 ≤ 4 ∧ frameNumLastRequested requested = 4 ∧
  (frameNumber (atFrame 5) = 4 ∨ frameNumber (atFrame 5) = 4 + 1 →
   isVisible (atFrame 5) requested = true) ∧
  (4 + 2 ≤ frameNumber (atFrame 5) → isVisible (atFrame 5) requested = false).
Proof.
  split; [lia|]. split; [reflexivity|].
  apply (isVisible_grace_period (atFrame 5) requested 4); [lia | reflexivity].
Defined.

(** The same tile over the frames 4, 5, 6 and 100. *)
Example isVisible_frames :
  isVisible (atFrame 4) requested = true ∧ isVisible (atFrame 5) requested = true ∧
  isVisible (atFrame 6) requested = false ∧ isVisible (atFrame 100) requested = false.
Proof. repeat split. Qed.

(** C7 at a tile without objects and without geometry loader. *)
Lemma forceHasGeometry_flags_witness :
  m_tileGeometryLoader requested = None ∧
  (hasGeometry forcedTile = true ∧ allGeometryLoaded forcedTile = true ∧
   basicGeometryLoaded forcedTile = true ∧ objects forcedTile = objects requested) ∧
  (m_forceHasGeometry requested = None →
   (hasGeometry requested = true ↔ objects requested ≠ []) ∧
   basicGeometryLoaded requested = hasGeometry requested ∧
   allGeometryLoaded requested = hasGeometry requested).
Proof.
  split; [reflexivity|].
  apply (forceHasGeometry_flags (atFrame 4) requested). reflexivity.
Defined.

(** The amended C2 at the tile that was prepared for picking. *)
Lemma dispose_postcondition_witness :
  m_disposed roadTile = false ∧
  disposed disposedRoadTile = true ∧ objects disposedRoadTile = [] ∧
  m_userTextElements disposedRoadTile = [] ∧
  m_textElementGroups disposedRoadTile = ∅ ∧ m_placedTextElements disposedRoadTile = ∅ ∧
  roadIntersectionData disposedRoadTile = roadIntersectionData roadTile ∧
  m_decodedTile disposedRoadTile = m_decodedTile roadTile ∧
  result (getResourceInfo disposedRoadTile) = Some
    {| heapSize := tileInfoBytes (m_decodedTile roadTile)
                   + roadBytes (roadIntersectionData roadTile);
       gpuSize := 0; num3dObjects := 0; numTextElements := 0;
       numUserTextElements := 0 |}.
Proof.
  split; [reflexivity|].
  apply (dispose_postcondition roadTile). reflexivity.
Defined.

(** C2 as the specification words it does not hold: a tile that was prepared
    for picking keeps its road-intersection record through [dispose()], and
    the ledger read afterwards reports the bytes of that record and of the
    decoded tile info, not zero. *)
Lemma dispose_keeps_road_data :
  m_disposed roadTile = false ∧ disposed disposedRoadTile = true ∧
  roadIntersectionData disposedRoadTile = Some oneRoad ∧
  roadIntersectionData disposedRoadTile ≠ None ∧
  heapSize <$> result (getResourceInfo disposedRoadTile) = Some 304 ∧
  heapSize <$> result (getResourceInfo disposedRoadTile) ≠ Some 0.
Proof. split_and!; try reflexivity; vm_compute; discriminate. Qed.


(** The siblings do invalidate: read after [setDecodedTile], the ledger of the
    same tile is computed anew. *)
Example setDecodedTile_fresh_ledger :
  heapSize <$> result (getResourceInfo
     (after (setDecodedTile (atFrame 4) defaultEmptyDecodedTile preparedAfterRead)))
  = Some 240.
Proof. reflexivity. Qed.

(** A box received from earlier decoded content stays when later content
    carries none. *)
Example setDecodedTile_keeps_refined_box :
  boundingBox (Tile_new source 11 None None) = 12 ∧
  boundingBox (after (setDecodedTile (atFrame 4) decodedWithBox
                        (Tile_new source 11 None None))) = 77 ∧
  boundingBox (after (setDecodedTile (atFrame 4) decodedWithInfo
     (after (setDecodedTile (atFrame 4) decodedWithBox
               (Tile_new source 11 None None))))) = 77.
Proof. repeat split. Qed.

(** Two tiles share texture 7; only tile A registered it. *)
Example shared_texture :
  calls (dispose tileA)
  = [GeometryDispose 21; TextureDispose 7; MaterialDispose 31;
     GeometryDispose 21; TextureDispose 7; MaterialDispose 31]%positive ∧
  calls (dispose tileB)
  = [GeometryDispose 21; MaterialDispose 31; GeometryDispose 21; MaterialDispose 31]%positive.
Proof. split; reflexivity. Qed.

(** C9 at a label inserted under priority 5 whose priority is 9 by now. *)
Lemma removeTextElement_stale_priority_witness :
  labelled [(1%positive, 5)] (withPriority 9) labelledOnce ∧
  (∀ p, (1%positive, p) ∈ [(1%positive, 5)]
        → p ≠ currentPriority (withPriority 9) 1%positive) ∧
  removeTextElement (withPriority 9) 1%positive labelledOnce = (false, labelledOnce, []).
Proof.
  assert (Hhist : labelled [(1%positive, 5)] (withPriority 9) labelledOnce).
  { apply labelled_surroundings with (env := withPriority 5).
    apply (labelled_add [] (withPriority 5)). apply labelled_new. }
  assert (Hstale : ∀ p, (1%positive, p) ∈ [(1%positive, 5)]
            → p ≠ currentPriority (withPriority 9) 1%positive).
  { intros p Hin. apply list_elem_of_singleton in Hin. injection Hin as ->. discriminate. }
  split; [exact Hhist|]. split; [exact Hstale|].
  exact (removeTextElement_stale_priority _ _ _ _ Hhist Hstale).
Defined.

(** The premise of C9 speaks of every insertion: an element inserted a second
    time under its new priority is found there and removed. *)
Example removeTextElement_reinserted :
  result (removeTextElement (withPriority 9) 1%positive
            (after (addTextElement (withPriority 9) 1%positive labelledOnce))) = true.
Proof. reflexivity. Qed.

(** * Further properties of the tile *)

Section TileProperties.

Context `{ExternalTypes} `{!Collaborators}.

Ltac run := cbv [mbind M_bind mret M_ret this assign call skip]; cbn beta iota.

(** Opens a tile into its fields, so that field assignments compute. *)
Ltac open_tile t :=
  destruct t as [objs deps gbox bbox road copyright requested firstVisible lastVisible
                 framesVisible counter paths isDisposed tangent forced loader decoded
                 geometryLoader userLabels groups placed changed area info owned handler
                 source key off].

(** ** Visibility stamps *)

(** X1. After [isVisible = true] in frame [n] the getter answers [true] at
    every frame up to [n + 1] and [false] after; after [isVisible = false] it
    answers [false] at every frame from 1 on, but still [true] at frame 0. *)
Theorem set_isVisible_roundtrip env env' visible t :
  isVisible env' (after (set_isVisible env visible t)) = true
  ↔ frameNumber env' ≤ (if visible then frameNumber env + 1 else 0).
Proof.
  unfold isVisible. rewrite bool_decide_eq_true, set_isVisible_stamp.
  destruct visible; lia.
Qed.

(** X2. [dispose()] on a tile not yet disposed stamps it with frame 0: the
    tile still counts as visible while the map view is at frame 0 or 1 and is
    invisible from frame 2 on. *)
Theorem dispose_visibility env t :
  m_disposed t = false →
  frameNumLastRequested (after (dispose t)) = 0 ∧
  (isVisible env (after (dispose t)) = true ↔ frameNumber env ≤ 1).
Proof.
  intros Hd. rewrite (dispose_after t Hd). split; [reflexivity|].
  unfold isVisible. rewrite bool_decide_eq_true. cbn. lia.
Qed.

(** X3. A tile as constructed is not disposed, has no geometry by any of the
    three getters, counts as visible only while the frame counter is at most
    0, and its ledger is zero in every field. *)
Theorem Tile_new_initial env ds key off lts :
  let t := Tile_new ds key off lts in
  disposed t = false ∧
  hasGeometry t = false ∧ basicGeometryLoaded t = false ∧ allGeometryLoaded t = false ∧
  (isVisible env t = true ↔ frameNumber env ≤ 0) ∧
  result (getResourceInfo t) = Some
    {| heapSize := 0; gpuSize := 0; num3dObjects := 0; numTextElements := 0;
       numUserTextElements := 0 |}.
Proof.
  cbn zeta. split_and!; try reflexivity.
  unfold isVisible. rewrite bool_decide_eq_true. cbn. lia.
Qed.

(** ** Reading the ledger *)


(** [memoryUsage] is the [heapSize] of the ledger [getResourceInfo()] returns,
    and it leaves the tile in the same state as that call. *)
Lemma memoryUsage_heapSize t :
  memoryUsage t
  = (heapSize <$> result (getResourceInfo t), after (getResourceInfo t), []).
Proof.
  rewrite getResourceInfo_run. unfold memoryUsage, ledger.
  rewrite bind_run; cbn [this].
  destruct (m_resourceInfo t) as [info|] eqn:Hinfo.
  - run. by rewrite Hinfo.
  - rewrite bind_run. destruct (computeResourceInfo_run t) as [info ->]. run. done.
Qed.

(** ** User labels *)

Lemma remove_first_length x l :
  x ∈ l → length (remove_first x l) = pred (length l).
Proof.
  induction l as [|y l IH]; [by intros ?%elem_of_nil|].
  intros Hin. cbn. case_decide as Hxy; [done|].
  apply elem_of_cons in Hin as [?|Hin]; [done|].
  cbn. rewrite IH by done. destruct l; [by apply elem_of_nil in Hin | done].
Qed.

Lemma remove_first_app_fresh x l : x ∉ l → remove_first x (l ++ [x]) = l.
Proof.
  induction l as [|y l IH]; intros Hnot; cbn.
  - by rewrite decide_True.
  - apply not_elem_of_cons in Hnot as [Hne Hnot].
    rewrite decide_False by done. by rewrite IH.
Qed.

Lemma remove_first_split x l :
  x ∈ l → ∃ l1 l2, l = l1 ++ x :: l2 ∧ (x ∉ l1) ∧ remove_first x l = l1 ++ l2.
Proof.
  induction l as [|y l IH]; [by intros ?%elem_of_nil|].
  intros Hin. cbn [remove_first]. case_decide as Hxy.
  - subst y. exists [], l. split_and!; [done | apply not_elem_of_nil | done].
  - apply elem_of_cons in Hin as [?|Hin]; [done|].
    destruct (IH Hin) as (l1 & l2 & -> & Hnot & ->).
    exists (y :: l1), l2. split_and!; [done | | done].
    apply not_elem_of_cons. by split.
Qed.

(** X5. [removeUserTextElement] answers [true] exactly when the element is in
    the user-label sequence. It then takes out the first occurrence of the
    element, keeps every other label in its place and order, raises
    [textElementsChanged] and changes nothing else; otherwise it leaves the
    tile as it is. It logs no call and never touches the cached ledger. *)
Theorem removeUserTextElement_result e t :
  let r := removeUserTextElement e t in
  (result r = true ↔ e ∈ m_userTextElements t) ∧
  (result r = true →
   (∃ l1 l2,
      m_userTextElements t = l1 ++ e :: l2 ∧ (e ∉ l1) ∧
      after r = set_m_textElementsChanged true (set_m_userTextElements (l1 ++ l2) t)) ∧
   len (m_userTextElements (after r)) = len (m_userTextElements t) - 1 ∧
   m_textElementsChanged (after r) = true) ∧
  (result r = false → after r = t) ∧
  calls r = [] ∧
  m_resourceInfo (after r) = m_resourceInfo t.
Proof.
  cbn zeta. unfold removeUserTextElement. rewrite bind_run; cbn [this].
  case_decide as Hin; run; cbn.
  - split_and!; try done. intros _. split_and!; [| |done].
    + destruct (remove_first_split _ _ Hin) as (l1 & l2 & Hl & Hnot & ->).
      by exists l1, l2.
    + unfold len. rewrite remove_first_length by done.
      destruct (m_userTextElements t); [by apply elem_of_nil in Hin | cbn; lia].
  - split_and!; done.
Qed.

Lemma remove_first_middle x l1 l2 :
  x ∉ l1 → remove_first x (l1 ++ x :: l2) = l1 ++ l2.
Proof.
  induction l1 as [|y l1 IH]; intros Hnot; cbn.
  - by rewrite decide_True.
  - apply not_elem_of_cons in Hnot as [Hne Hnot].
    rewrite decide_False by done. by rewrite IH.
Qed.

(** X6. Removing a user label right after adding it succeeds for every label
    and every tile, and [textElementsChanged] stays raised. When the label
    was not in the sequence before, the sequence is back to what it was; when
    it was, its first occurrence is gone and the label sits at the end. *)
Theorem addUserTextElement_then_remove e t :
  let r := removeUserTextElement e (after (addUserTextElement e t)) in
  result r = true ∧
  m_textElementsChanged (after r) = true ∧
  (e ∉ m_userTextElements t → m_userTextElements (after r) = m_userTextElements t) ∧
  (∀ l1 l2, m_userTextElements t = l1 ++ e :: l2 → e ∉ l1 →
            m_userTextElements (after r) = l1 ++ l2 ++ [e]).
Proof.
  cbn zeta. unfold removeUserTextElement, addUserTextElement.
  rewrite !bind_run; run; cbn.
  rewrite decide_True by (apply elem_of_app; right; by apply list_elem_of_singleton).
  run; cbn. split_and!; [done | done | |].
  - intros Hfresh. by rewrite remove_first_app_fresh.
  - intros l1 l2 -> Hnot. rewrite <- app_assoc. cbn [app].
    by rewrite remove_first_middle.
Qed.

Lemma addUserTextElement_after e t :
  after (addUserTextElement e t)
  = set_m_textElementsChanged true
      (set_m_userTextElements (m_userTextElements t ++ [e]) t).
Proof. reflexivity. Qed.

(** X7. [addUserTextElement] does not invalidate the ledger: a cached
    snapshot stays in place. Once recomputed, the ledger counts one user label
    more and 312 bytes of heap more, and is otherwise the same. *)
Theorem addUserTextElement_ledger e t :
  let t' := after (addUserTextElement e t) in
  m_resourceInfo t' = m_resourceInfo t ∧
  ∃ before now,
    ledger t = Some before ∧ ledger t' = Some now ∧
    numUserTextElements now = numUserTextElements before + 1 ∧
    heapSize now = heapSize before + 312 ∧
    gpuSize now = gpuSize before ∧
    num3dObjects now = num3dObjects before ∧
    numTextElements now = numTextElements before.
Proof.
  cbn zeta. split; [reflexivity|].
  rewrite !ledger_value. do 2 eexists. split; [reflexivity|]. split; [reflexivity|].
  rewrite addUserTextElement_after. cbn. unfold len. rewrite length_app. cbn.
  unfold estimateAll. split_and!; try done; lia.
Qed.

(** ** What [clear] does *)

(** X8. [clear()] calls [dispose] on a geometry exactly when it is the
    geometry of a root object of the tile or of a descendant of one, and on a
    material exactly when such an object refers to it. *)
Theorem clear_disposes_reachable t :
  (∀ g, GeometryDispose g ∈ calls (clear t)
        ↔ ∃ o, o ∈ reachableObjects t ∧ THREE.geometry o = Some g) ∧
  (∀ m, MaterialDispose m ∈ calls (clear t)
        ↔ ∃ o material, o ∈ reachableObjects t ∧ material ∈ materialsOf o ∧
                        THREE.mat_uuid material = m).
Proof.
  rewrite clear_run. unfold calls; cbn [snd].
  assert (Hroot : ∀ root, root ∈ objects t → root ∈ reachableObjects t).
  { intros root Hroot. apply elem_of_flat_map. exists root. split; [done|].
    destruct root; cbn. by left. }
  assert (Hvisit : ∀ (P : Event → Prop) e,
    (∀ a, P a → a ∉ (if m_animatedExtrusionTileHandler t is Some handler
                     then [AnimatedExtrusionDispose handler] else [])) →
    P e →
    (e ∈ clearCalls t ↔ ∃ o, o ∈ reachableObjects t ∧ e ∈ objectCalls t o)).
  { intros P e Hnot HP. unfold clearCalls, reachableObjects.
    rewrite elem_of_app, !elem_of_flat_map. split.
    - intros [(root & Hin & Hcall)|Hh]; [|by apply Hnot in HP].
      apply elem_of_app in Hcall as [Hcall|Hcall].
      + apply elem_of_flat_map in Hcall as (o & Ho & Hcall).
        exists o. split; [|done]. apply elem_of_flat_map. eauto.
      + exists root. split; [|done]. by apply Hroot.
    - intros (o & Ho & Hcall). left.
      apply elem_of_flat_map in Ho as (root & Hin & Ho).
      exists root. split; [done|]. apply elem_of_app. left.
      apply elem_of_flat_map. eauto. }
  split.
  - intros g. rewrite (Hvisit (λ a, ∃ g, a = GeometryDispose g)); [| |by eauto].
    + apply exist_proper; intros o. apply and_iff_compat_l.
      unfold objectCalls. rewrite elem_of_app, elem_of_flat_map. split.
      * intros [Hgeo|(m & _ & Hcall)].
        -- destruct (THREE.geometry o); [|by apply elem_of_nil in Hgeo].
           apply list_elem_of_singleton in Hgeo. congruence.
        -- unfold materialCalls in Hcall.
           rewrite elem_of_app, elem_of_flat_map, list_elem_of_singleton in Hcall.
           destruct Hcall as [([p v] & _ & Hcall)|?]; [|done].
           cbn in Hcall. destruct v; try by apply elem_of_nil in Hcall.
           destruct (shouldDisposeTexture t texture);
             [by apply list_elem_of_singleton in Hcall | by apply elem_of_nil in Hcall].
      * intros ->. left. by apply list_elem_of_singleton.
    + intros a [g' ->]. destruct (m_animatedExtrusionTileHandler t);
        [by intros ?%list_elem_of_singleton | by intros ?%elem_of_nil].
  - intros m. rewrite (Hvisit (λ a, ∃ m, a = MaterialDispose m)); [| |by eauto].
    + apply exist_proper; intros o. split.
      * intros (Ho & Hcall). unfold objectCalls in Hcall.
        apply elem_of_app in Hcall as [Hgeo|Hcall].
        { destruct (THREE.geometry o); [|by apply elem_of_nil in Hgeo].
          by apply list_elem_of_singleton in Hgeo. }
        apply elem_of_flat_map in Hcall as (material & Hmat & Hcall).
        exists material. split_and!; try done.
        unfold materialCalls in Hcall.
        rewrite elem_of_app, elem_of_flat_map, list_elem_of_singleton in Hcall.
        destruct Hcall as [([p v] & _ & Hcall)|Hcall]; [|congruence].
        cbn in Hcall. destruct v; try by apply elem_of_nil in Hcall.
        destruct (shouldDisposeTexture t texture);
          [by apply list_elem_of_singleton in Hcall | by apply elem_of_nil in Hcall].
      * intros (material & Ho & Hmat & <-). split; [done|].
        unfold objectCalls. apply elem_of_app. right.
        apply elem_of_flat_map. exists material. split; [done|].
        unfold materialCalls. apply elem_of_app. right.
        by apply list_elem_of_singleton.
    + intros a [m' ->]. destruct (m_animatedExtrusionTileHandler t);
        [by intros ?%list_elem_of_singleton | by intros ?%elem_of_nil].
Qed.

(** X9. A second [clear()] finds nothing left to free: the tile stays as the
    first call left it, and the only call made is [dispose] on the animated
    extrusion handler, which [clear()] does not detach. *)
Theorem clear_twice t :
  clear (after (clear t))
  = ((), after (clear t),
     if m_animatedExtrusionTileHandler t is Some handler
     then [AnimatedExtrusionDispose handler] else []).
Proof.
  rewrite (clear_run t). unfold after; cbn [fst snd]. rewrite clear_run.
  f_equal; [f_equal|].
  - open_tile t. destruct paths; vm_compute; reflexivity.
  - open_tile t. destruct paths; vm_compute; reflexivity.
Qed.

(** X10. [clear()] is not terminal: it keeps the disposed flag, both loaders,
    the decoded content, the road record, the registered textures and the
    visibility stamp. With the object sequence emptied, [hasGeometry] afterwards
    is whatever [forceHasGeometry] last set, and [false] if it never was
    called. *)
Theorem clear_keeps t :
  let t' := after (clear t) in
  disposed t' = disposed t ∧
  m_tileLoader t' = m_tileLoader t ∧
  m_tileGeometryLoader t' = m_tileGeometryLoader t ∧
  m_decodedTile t' = m_decodedTile t ∧
  roadIntersectionData t' = roadIntersectionData t ∧
  m_ownedTextures t' = m_ownedTextures t ∧
  frameNumLastRequested t' = frameNumLastRequested t ∧
  hasGeometry t' = default false (m_forceHasGeometry t).
Proof.
  cbn zeta. rewrite clear_run. unfold after, cleared, hasGeometry, disposed; cbn [fst snd].
  destruct (preparedTextPaths t); cbn; by destruct (m_forceHasGeometry t).
Qed.

(** ** Picking *)

(** X11. [prepareTileInfo()] leaves the tile exactly as it is, the road
    record included, and logs no call when the tile has no decoded content, or
    is disposed, or is not visible, or its decoded content carries no tile
    info. *)
Theorem prepareTileInfo_guards env t :
  m_decodedTile t = None ∨ m_disposed t = true ∨ isVisible env t = false ∨
  (∃ decodedTile, m_decodedTile t = Some decodedTile ∧ tileInfo decodedTile = None) →
  prepareTileInfo env t = ((), t, []).
Proof.
  unfold prepareTileInfo. rewrite bind_run; cbn [this].
  intros [Hdec|[Hd|[Hvis|(d & Hdec & Hinfo)]]].
  - by rewrite Hdec.
  - rewrite Hd. by destruct (m_decodedTile t).
  - rewrite Hvis. destruct (m_decodedTile t); [|done]. by rewrite orb_true_r.
  - rewrite Hdec, Hinfo. by destruct (m_disposed t || negb (isVisible env t)).
Qed.

(** X12. Whatever the tile, [prepareTileInfo()] makes no call on a
    collaborator through the log and changes at most the road record; and on a
    tile that [dispose()] has just returned from it changes nothing. *)
Theorem prepareTileInfo_frame env t :
  (∃ road, prepareTileInfo env t = ((), set_roadIntersectionData road t, [])) ∧
  prepareTileInfo env (after (dispose t)) = ((), after (dispose t), []).
Proof.
  split.
  - unfold prepareTileInfo. rewrite bind_run; cbn [this].
    assert (Hsame : set_roadIntersectionData (roadIntersectionData t) t = t)
      by by destruct t.
    destruct (m_decodedTile t) as [d|]; [|exists (roadIntersectionData t); by rewrite Hsame].
    destruct (m_disposed t || negb (isVisible env t));
      [exists (roadIntersectionData t); by rewrite Hsame|].
    destruct (tileInfo d); [by eexists | exists (roadIntersectionData t); by rewrite Hsame].
  - apply prepareTileInfo_guards. right; left. apply dispose_sets_flag.
Qed.

(** ** Forcing the geometry flag *)

(** X13. [forceHasGeometry(true)] replaces whatever decoded content the tile
    held by the empty default and invalidates the ledger, so that a following
    [prepareTileInfo()] finds no tile info and does nothing.
    [forceHasGeometry(false)] keeps the decoded content and the cached ledger
    and makes [hasGeometry] false even when the tile holds objects. *)
Theorem forceHasGeometry_effects env env' t :
  let forced := after (forceHasGeometry env true t) in
  let unforced := after (forceHasGeometry env false t) in
  m_decodedTile forced = Some defaultEmptyDecodedTile ∧
  boundingBox forced = boundingBox t ∧
  m_resourceInfo forced = None ∧
  calls (forceHasGeometry env true t) = [] ∧
  prepareTileInfo env' forced = ((), forced, []) ∧
  m_decodedTile unforced = m_decodedTile t ∧
  m_resourceInfo unforced = m_resourceInfo t ∧
  hasGeometry unforced = false.
Proof.
  cbn zeta.
  assert (Hforced : forceHasGeometry env true t
    = ((), set_m_forceHasGeometry (Some true)
             (set_m_resourceInfo None
                (set_m_decodedTile (Some defaultEmptyDecodedTile) t)), [])).
  { unfold forceHasGeometry, setDecodedTile, invalidateResourceInfo.
    destruct (statsEnabled env); run; done. }
  rewrite Hforced. unfold after, calls; cbn [fst snd].
  split_and!; try reflexivity.
  apply prepareTileInfo_guards. right; right; right.
  by exists defaultEmptyDecodedTile.
Qed.

(** ** Decoded content *)

(** X14. [removeDecodedTile()] after [setDecodedTile(D)] leaves the tile
    without decoded content and with an invalidated ledger, but the bounding
    box keeps the refinement [D] brought: the box the tile had before is not
    restored. *)
Theorem setDecodedTile_then_remove env D t :
  let t' := after (removeDecodedTile (after (setDecodedTile env D t))) in
  m_decodedTile t' = None ∧
  m_resourceInfo t' = None ∧
  boundingBox t' = default (boundingBox t) (dt_boundingBox D).
Proof.
  unfold setDecodedTile, removeDecodedTile, invalidateResourceInfo, OrientedBox3_copy.
  destruct (dt_boundingBox D), (statsEnabled env), (decodeTime D); run; done.
Qed.

(** ** Disposal and the loaders *)

(** X15. [dispose()] cancels a tile loader exactly when the tile is not yet
    disposed and holds that loader, and likewise disposes the geometry loader;
    the cancellation comes before every other call, and afterwards a tile that
    was not disposed holds neither loader. *)
Theorem dispose_detaches t :
  (∀ l, TileLoaderCancel l ∈ calls (dispose t)
        ↔ m_disposed t = false ∧ m_tileLoader t = Some l) ∧
  (∀ g, TileGeometryLoaderDispose g ∈ calls (dispose t)
        ↔ m_disposed t = false ∧ tgl_id <$> m_tileGeometryLoader t = Some g) ∧
  (∀ l, m_disposed t = false → m_tileLoader t = Some l →
        ∃ rest, calls (dispose t) = TileLoaderCancel l :: rest) ∧
  (m_disposed t = false →
   m_tileLoader (after (dispose t)) = None ∧
   m_tileGeometryLoader (after (dispose t)) = None).
Proof.
  rewrite dispose_run.
  assert (Hclear : ∀ e, (∃ l, e = TileLoaderCancel l) ∨ (∃ g, e = TileGeometryLoaderDispose g)
                        → e ∉ clearCalls (detached t)).
  { intros e He Hin. unfold clearCalls in Hin.
    apply elem_of_app in Hin as [Hin|Hin].
    - apply elem_of_flat_map in Hin as (root & _ & Hin).
      assert (Hobj : ∀ o, e ∉ objectCalls (detached t) o).
      { intros o Ho. unfold objectCalls in Ho. apply elem_of_app in Ho as [Ho|Ho].
        - destruct (THREE.geometry o); [|by apply elem_of_nil in Ho].
          apply list_elem_of_singleton in Ho. by destruct He as [[? ->]|[? ->]].
        - apply elem_of_flat_map in Ho as (m & _ & Ho). unfold materialCalls in Ho.
          rewrite elem_of_app, elem_of_flat_map, list_elem_of_singleton in Ho.
          destruct Ho as [([p v] & _ & Ho)|Ho]; [|by destruct He as [[? ->]|[? ->]]].
          cbn in Ho. destruct v; try by apply elem_of_nil in Ho.
          destruct (shouldDisposeTexture _ _); [|by apply elem_of_nil in Ho].
          apply list_elem_of_singleton in Ho. by destruct He as [[? ->]|[? ->]]. }
      apply elem_of_app in Hin as [Hin|Hin]; [|by apply Hobj in Hin].
      apply elem_of_flat_map in Hin as (o & _ & Hin). by apply Hobj in Hin.
    - destruct (m_animatedExtrusionTileHandler _); [|by apply elem_of_nil in Hin].
      apply list_elem_of_singleton in Hin. by destruct He as [[? ->]|[? ->]]. }
  destruct (m_disposed t) eqn:Hd; unfold calls, after; cbn [fst snd].
  { split_and!; try done; intros ?; (split; [by intros ?%elem_of_nil | by intros [? _]]). }
  split_and!.
  - intros l. rewrite elem_of_app. split.
    + intros [Hin|Hin];
        [|exfalso; exact (Hclear _ (or_introl (ex_intro _ l eq_refl)) Hin)].
      split; [done|]. unfold detachCalls in Hin.
      destruct (m_tileLoader t), (m_tileGeometryLoader t); cbn in Hin;
        repeat (apply elem_of_cons in Hin as [Hin|Hin]; [congruence|]);
        by apply elem_of_nil in Hin.
    + intros [_ Hl]. left. unfold detachCalls. rewrite Hl.
      apply elem_of_app. left. by apply list_elem_of_singleton.
  - intros g. rewrite elem_of_app. split.
    + intros [Hin|Hin];
        [|exfalso; exact (Hclear _ (or_intror (ex_intro _ g eq_refl)) Hin)].
      split; [done|]. unfold detachCalls in Hin.
      destruct (m_tileLoader t), (m_tileGeometryLoader t); cbn in Hin;
        repeat (apply elem_of_cons in Hin as [Hin|Hin]; [cbn; congruence|]);
        by apply elem_of_nil in Hin.
    + intros [_ Hg]. left. unfold detachCalls.
      destruct (m_tileGeometryLoader t) as [gl|]; [|done]. cbn in Hg.
      injection Hg as <-. apply elem_of_app. right. by apply list_elem_of_singleton.
  - intros l _ Hl. unfold detachCalls. rewrite Hl. cbn. by eexists.
  - intros _. clear. open_tile t. destruct loader, geometryLoader, paths; by vm_compute.
Qed.

(** ** Registered textures *)

(** X16. Registration is for good: neither [clear()] nor [dispose()] takes a
    texture out of the set the tile owns, and registering a texture a second
    time changes nothing. *)
Theorem ownedTextures_persist t x :
  m_ownedTextures (after (clear t)) = m_ownedTextures t ∧
  m_ownedTextures (after (dispose t)) = m_ownedTextures t ∧
  after (addOwnedTexture x (after (addOwnedTexture x t))) = after (addOwnedTexture x t).
Proof.
  split_and!.
  - by destruct (clear_keeps t) as (_ & _ & _ & _ & _ & ? & _).
  - rewrite dispose_run. destruct (m_disposed t); [done|].
    destruct (detached_keeps t) as (_ & _ & _ & Hown & _).
    unfold after, cleared; cbn [fst snd].
    by destruct (preparedTextPaths (detached t)).
  - unfold addOwnedTexture, assign, after; cbn.
    assert (Hset : m_ownedTextures t ∪ {[x]} ∪ {[x]} = m_ownedTextures t ∪ {[x]}).
    { rewrite <- (assoc_L (∪)). by rewrite union_idemp_L. }
    unfold set_m_ownedTextures; cbn. by rewrite Hset.
Qed.

(** ** Size estimates *)

(** X17. The size of feature data is never below 100 bytes, and it is exactly
    100 bytes precisely when each of the three arrays is absent or empty. *)
Theorem getFeatureDataSize_bound (featureData : TileFeatureData) :
  100 ≤ getFeatureDataSize featureData ∧
  (getFeatureDataSize featureData = 100
   ↔ default 0 (len <$> fd_ids featureData) = 0 ∧
     default 0 (len <$> fd_starts featureData) = 0 ∧
     default 0 (len <$> fd_objInfos featureData) = 0).
Proof.
  unfold getFeatureDataSize, MINIMUM_OBJECT_SIZE_ESTIMATION,
    MINIMUM_SMALL_OBJECT_SIZE_ESTIMATION, len.
  destruct (fd_ids featureData), (fd_starts featureData), (fd_objInfos featureData);
    cbn; lia.
Qed.

Lemma presence_agrees {A B} (x : option A) (y : option B) :
  (is_Some x ↔ is_Some y) →
  (x = None ∧ y = None) ∨ (∃ a b, x = Some a ∧ y = Some b).
Proof.
  intros [Hxy Hyx]. destruct x as [a|], y as [b|]; [right; by eauto| | |by left].
  - destruct Hxy as [? [=]]. by eexists.
  - destruct Hyx as [? [=]]. by eexists.
Qed.

(** X18. The size of a road record depends on nothing but the number of
    technique-index entries and on whether [ids] and [objInfos] are present:
    the contents of [ids], [starts], [widths], [positions] and [techniques] do
    not enter. *)
Theorem getRoadIntersectionDataSize_depends (a b : RoadIntersectionData) :
  length (techniqueIndex a) = length (techniqueIndex b) →
  (is_Some (ids a) ↔ is_Some (ids b)) →
  (is_Some (objInfos a) ↔ is_Some (objInfos b)) →
  getRoadIntersectionDataSize a = getRoadIntersectionDataSize b.
Proof.
  intros Hlen Hids Hinfos. unfold getRoadIntersectionDataSize, len. rewrite Hlen.
  destruct (presence_agrees _ _ Hids) as [[-> ->]|(? & ? & -> & ->)],
           (presence_agrees _ _ Hinfos) as [[-> ->]|(? & ? & -> & ->)]; reflexivity.
Qed.

(** ** Which mutators invalidate the ledger *)


End TileProperties.

(** * Properties of the data source for the poles *)

Section PolarProperties.

Context `{ExternalTypes} `{!Collaborators} `{!Polar.PolarCollaborators}.

Ltac run := cbv [mbind M_bind mret M_ret this assign call skip]; cbn beta iota.

Local Open Scope Q_scope.

Lemma gt_true (a b : Q) : Polar.gt a b = true ↔ b < a.
Proof.
  unfold Polar.gt. rewrite negb_true_iff, <- not_true_iff_false, Qle_bool_iff.
  split; [apply Qnot_le_lt | apply Qlt_not_le].
Qed.

Lemma ge_true (a b : Q) : Polar.ge a b = true ↔ b <= a.
Proof. apply Qle_bool_iff. Qed.

Lemma isNorthPole_true (box : GeoBox) :
  Polar.gt (Polar.north box) 0 && Polar.ge (Polar.south box) 0 = true
  ↔ Polar.isNorthPole box.
Proof. unfold Polar.isNorthPole. by rewrite andb_true_iff, gt_true, ge_true. Qed.

(** The latitudes between which [createTileGeometry] spans the quad. *)
Lemma limits_north (n s m : Q) :
  (Polar.Math_max s m < Polar.Math_max n m ↔ s < n ∧ m < n) ∧
  (Polar.Math_max s m < Polar.Math_max n m →
   Polar.Math_max n m = n ∧ m <= Polar.Math_max s m ∧ s <= Polar.Math_max s m).
Proof.
  unfold Polar.Math_max.
  destruct (Qle_bool s m) eqn:Hs, (Qle_bool n m) eqn:Hn;
    rewrite ?Qle_bool_iff in *;
    repeat match goal with
           | E : Qle_bool ?a ?b = false |- _ =>
               assert (b < a) by (apply Qnot_le_lt; rewrite <- Qle_bool_iff; congruence);
               clear E
           end;
    (split; [split; intros; try split; lra | intros; split_and!; try reflexivity; lra]).
Qed.

Lemma limits_south (n s m : Q) :
  (Polar.Math_min s (- m) < Polar.Math_min n (- m) ↔ s < n ∧ s < - m) ∧
  (Polar.Math_min s (- m) < Polar.Math_min n (- m) →
   Polar.Math_min s (- m) = s ∧ Polar.Math_min n (- m) <= - m ∧
   Polar.Math_min n (- m) <= n).
Proof.
  unfold Polar.Math_min.
  destruct (Qle_bool s (- m)) eqn:Hs, (Qle_bool n (- m)) eqn:Hn;
    rewrite ?Qle_bool_iff in *;
    repeat match goal with
           | E : Qle_bool ?a ?b = false |- _ =>
               assert (b < a) by (apply Qnot_le_lt; rewrite <- Qle_bool_iff; congruence);
               clear E
           end;
    (split; [split; intros; try split; lra | intros; split_and!; try reflexivity; lra]).
Qed.

Lemma createTileGeometry_run p fresh t :
  let box := geoBox t in
  let northern := Polar.gt (Polar.north box) 0 && Polar.ge (Polar.south box) 0 in
  let limitedNorth :=
    if northern then Polar.Math_max (Polar.north box) (Polar.m_maxLatitude p)
    else Polar.Math_min (Polar.north box) (- Polar.m_maxLatitude p) in
  let limitedSouth :=
    if northern then Polar.Math_max (Polar.south box) (Polar.m_maxLatitude p)
    else Polar.Math_min (Polar.south box) (- Polar.m_maxLatitude p) in
  Polar.createTileGeometry p fresh t =
  match (if northern then Polar.m_northPoleMaterial p else Polar.m_southPoleMaterial p) with
  | Some material =>
      if Polar.ge limitedSouth limitedNorth then (None, t, [])
      else
        (Some {| Polar.vertices :=
                   (λ point, Polar.sub (Polar.projectPoint point)
                                       (Polar.position (boundingBox t)))
                   <$> [(limitedSouth, Polar.west box); (limitedSouth, Polar.east box);
                        (limitedNorth, Polar.west box); (limitedNorth, Polar.east box)];
                 Polar.faces := [(0, 1, 2); (2, 1, 3)]%Z |},
         set_objects
           (objects t ++ [Polar.Mesh (Polar.new_mesh fresh) (Polar.new_geometry fresh)
                            material]) t,
         [GeometryDispose (Polar.new_scratch fresh)])
  | None => (None, t, [])
  end.
Proof.
  cbn zeta. unfold Polar.createTileGeometry. rewrite bind_run; cbn [this].
  destruct (if _ && _ then Polar.m_northPoleMaterial p else Polar.m_southPoleMaterial p);
    [|done].
  match goal with
  | |- context [if Polar.ge ?a ?b then _ else _] => destruct (Polar.ge a b)
  end; run; done.
Qed.

(** X19. [createTileGeometry] adds a mesh exactly when the geo box of the tile
    has [south < north] and either it is a north-pole box, a north-pole
    material is set and the box reaches north of the latitude limit, or it is
    not, a south-pole material is set and the box reaches south of the negated
    limit. The mesh is appended to the objects with the material of its pole,
    and the only call is [dispose] on the scratch geometry; in every other case
    the tile is untouched and nothing is called. *)
Theorem createTileGeometry_when p fresh t :
  let r := Polar.createTileGeometry p fresh t in
  let box := geoBox t in
  (is_Some (result r) ↔
   Polar.south box < Polar.north box ∧
   ((Polar.isNorthPole box ∧ is_Some (Polar.m_northPoleMaterial p) ∧
     Polar.m_maxLatitude p < Polar.north box) ∨
    (¬ Polar.isNorthPole box ∧ is_Some (Polar.m_southPoleMaterial p) ∧
     Polar.south box < - Polar.m_maxLatitude p))) ∧
  (result r = None → r = (None, t, [])) ∧
  (is_Some (result r) →
   ∃ material,
     (Polar.isNorthPole box → Polar.m_northPoleMaterial p = Some material) ∧
     (¬ Polar.isNorthPole box → Polar.m_southPoleMaterial p = Some material) ∧
     after r = set_objects
                 (objects t ++ [Polar.Mesh (Polar.new_mesh fresh)
                                  (Polar.new_geometry fresh) material]) t ∧
     calls r = [GeometryDispose (Polar.new_scratch fresh)]).
Proof.
  cbn zeta. rewrite createTileGeometry_run.
  pose proof (isNorthPole_true (geoBox t)) as Hpole.
  destruct (Polar.gt (Polar.north (geoBox t)) 0 && Polar.ge (Polar.south (geoBox t)) 0)
    eqn:Hnorthern.
  - assert (Hn : Polar.isNorthPole (geoBox t)) by by apply Hpole.
    destruct (limits_north (Polar.north (geoBox t)) (Polar.south (geoBox t))
                (Polar.m_maxLatitude p)) as [Hiff _].
    destruct (Polar.m_northPoleMaterial p) as [material|].
    + match goal with
      | |- context [if Polar.ge ?a ?b then _ else _] => destruct (Polar.ge a b) eqn:Hge
      end.
      * apply ge_true in Hge. split_and!; [|done|by intros [? [=]]].
        split; [by intros [? [=]]|]. intros [Hsn [(_ & _ & Hm)|(Hnot & _)]]; [|done].
        exfalso. apply (Qle_not_lt _ _ Hge). by apply Hiff.
      * assert (Hlt : Polar.Math_max (Polar.south (geoBox t)) (Polar.m_maxLatitude p)
                      < Polar.Math_max (Polar.north (geoBox t)) (Polar.m_maxLatitude p)).
        { apply Qnot_le_lt. intros Hle. apply ge_true in Hle. congruence. }
        apply Hiff in Hlt as [Hsn Hm]. split_and!; [|by intros [=]|].
        { split; [|by eauto]. intros _. split; [done|]. left. by eauto. }
        intros _. exists material. by split_and!.
    + split_and!; [|done|by intros [? [=]]].
      split; [by intros [? [=]]|]. by intros [_ [(_ & [? [=]] & _)|(Hnot & _)]].
  - assert (Hn : ¬ Polar.isNorthPole (geoBox t)).
    { intros Hn. apply Hpole in Hn. congruence. }
    destruct (limits_south (Polar.north (geoBox t)) (Polar.south (geoBox t))
                (Polar.m_maxLatitude p)) as [Hiff _].
    destruct (Polar.m_southPoleMaterial p) as [material|].
    + match goal with
      | |- context [if Polar.ge ?a ?b then _ else _] => destruct (Polar.ge a b) eqn:Hge
      end.
      * apply ge_true in Hge. split_and!; [|done|by intros [? [=]]].
        split; [by intros [? [=]]|]. intros [Hsn [(Hyes & _)|(_ & _ & Hm)]]; [done|].
        exfalso. apply (Qle_not_lt _ _ Hge). by apply Hiff.
      * assert (Hlt : Polar.Math_min (Polar.south (geoBox t)) (- Polar.m_maxLatitude p)
                      < Polar.Math_min (Polar.north (geoBox t)) (- Polar.m_maxLatitude p)).
        { apply Qnot_le_lt. intros Hle. apply ge_true in Hle. congruence. }
        apply Hiff in Hlt as [Hsn Hm]. split_and!; [|by intros [=]|].
        { split; [|by eauto]. intros _. split; [done|]. right. by eauto. }
        intros _. exists material. by split_and!.
    + split_and!; [|done|by intros [? [=]]].
      split; [by intros [? [=]]|]. by intros [_ [(Hyes & _)|(_ & [? [=]] & _)]].
Qed.

(** X20. When [createTileGeometry] makes a mesh, the quad it builds has the
    projections of four corners as vertices, relative to the centre of the
    tile: west and east at a southern latitude, then west and east at a
    northern one, in two fixed triangles. The southern latitude is strictly
    below the northern one. For a north-pole box the northern one is the north
    of the box and the southern one lies at or above both the latitude limit
    and the south of the box; otherwise the southern one is the south of the
    box and the northern one lies at or below both the negated limit and the
    north of the box. *)
Theorem createTileGeometry_quad p fresh t g :
  result (Polar.createTileGeometry p fresh t) = Some g →
  let box := geoBox t in
  ∃ limitedSouth limitedNorth,
    Polar.vertices g
    = (λ point, Polar.sub (Polar.projectPoint point) (Polar.position (boundingBox t)))
      <$> [(limitedSouth, Polar.west box); (limitedSouth, Polar.east box);
           (limitedNorth, Polar.west box); (limitedNorth, Polar.east box)] ∧
    Polar.faces g = [(0, 1, 2); (2, 1, 3)]%Z ∧
    limitedSouth < limitedNorth ∧
    (Polar.isNorthPole box →
     limitedNorth = Polar.north box ∧
     Polar.m_maxLatitude p <= limitedSouth ∧ Polar.south box <= limitedSouth) ∧
    (¬ Polar.isNorthPole box →
     limitedSouth = Polar.south box ∧
     limitedNorth <= - Polar.m_maxLatitude p ∧ limitedNorth <= Polar.north box).
Proof.
  rewrite createTileGeometry_run. cbn zeta.
  pose proof (isNorthPole_true (geoBox t)) as Hpole.
  destruct (if _ && _ then Polar.m_northPoleMaterial p else Polar.m_southPoleMaterial p)
    as [material|]; [|by intros [=]].
  match goal with
  | |- context [if Polar.ge ?a ?b then _ else _] => destruct (Polar.ge a b) eqn:Hge
  end; [by intros [=]|].
  intros [= <-]. do 2 eexists. split; [reflexivity|]. split; [reflexivity|].
  assert (Hlt : ∀ a b, Polar.ge a b = false → a < b).
  { intros a b Hab. apply Qnot_le_lt. intros Hle. apply ge_true in Hle. congruence. }
  apply Hlt in Hge. split; [exact Hge|].
  destruct (Polar.gt (Polar.north (geoBox t)) 0 && Polar.ge (Polar.south (geoBox t)) 0)
    eqn:Hnorthern.
  - split; [|intros Hnot; exfalso; apply Hnot; by apply Hpole].
    intros _. by apply limits_north.
  - split; [intros Hyes; apply Hpole in Hyes; congruence|].
    intros _. by apply limits_south.
Qed.

(** X21. Take a data source with both pole materials set and a latitude limit
    that is not negative, and a tile key whose geo box has [south < north] and
    does not straddle the equator. At the zoom level of the key, from level 2
    on, [shouldRender] answers [true] exactly when [getTile] returns a tile
    that has geometry. *)
Theorem shouldRender_getTile p fresh zoomLevel tileKey :
  let box := Polar.polarTilingScheme_getGeoBox tileKey in
  zoomLevel = Polar.level tileKey →
  (2 ≤ Polar.level tileKey)%Z →
  0 <= Polar.m_maxLatitude p →
  Polar.south box < Polar.north box →
  0 <= Polar.south box ∨ Polar.north box <= 0 →
  is_Some (Polar.m_northPoleMaterial p) →
  is_Some (Polar.m_southPoleMaterial p) →
  Polar.shouldRender p zoomLevel tileKey = true
  ↔ hasGeometry (after (Polar.getTile p fresh tileKey)) = true.
Proof.
  cbn zeta. intros -> Hlevel Hmax Hbox Hside Hnorth Hsouth.
  set (box := Polar.polarTilingScheme_getGeoBox tileKey) in *.
  assert (Hrender : Polar.shouldRender p (Polar.level tileKey) tileKey = true
                    ↔ Polar.m_maxLatitude p < Polar.north box
                      ∨ Polar.south box < - Polar.m_maxLatitude p).
  { unfold Polar.shouldRender. rewrite Z.eqb_refl. cbn [negb orb].
    destruct (Z.ltb_spec (Polar.level tileKey) 2); [lia|].
    fold box. by rewrite orb_true_iff, !gt_true. }
  set (tile := Tile_new (Polar.asDataSource p) tileKey None None).
  assert (Hgeo : hasGeometry (after (Polar.getTile p fresh tileKey)) = true
                 ↔ is_Some (result (Polar.createTileGeometry p fresh tile))).
  { unfold Polar.getTile. fold tile.
    destruct (createTileGeometry_when p fresh tile) as (_ & Hnone & Hsome).
    destruct (result (Polar.createTileGeometry p fresh tile)) as [g|] eqn:Hres.
    - destruct (Hsome (ltac:(by eexists))) as (material & _ & _ & -> & _).
      split; [by eexists|]. intros _. reflexivity.
    - rewrite (Hnone eq_refl). split; [discriminate|by intros [? [=]]]. }
  rewrite Hrender, Hgeo.
  destruct (createTileGeometry_when p fresh tile) as (-> & _).
  change (geoBox tile) with box. unfold Polar.isNorthPole.
  split.
  - intros [Hn|Hs]; (split; [done|]).
    + left. split_and!; try done; destruct Hside; lra.
    + right. split_and!; try done. intros [? ?]. lra.
  - intros [_ [(_ & _ & ?)|(_ & _ & ?)]]; [by left | by right].
Qed.

(** X22. [dispose()] of the data source calls [dispose] on each pole material
    that is set, north first, and leaves the source without materials and
    without evaluator. A second [dispose()] calls nothing and changes nothing,
    and after it [createTileGeometry] adds no mesh to any tile. *)
Theorem polar_dispose_releases p :
  let r := Polar.dispose p in
  r.2 = ((λ material, MaterialDispose (THREE.mat_uuid material))
           <$> (option_list (Polar.m_northPoleMaterial p)
                ++ option_list (Polar.m_southPoleMaterial p))) ∧
  Polar.m_northPoleMaterial r.1 = None ∧
  Polar.m_southPoleMaterial r.1 = None ∧
  Polar.m_styleSetEvaluator r.1 = None ∧
  Polar.m_maxLatitude r.1 = Polar.m_maxLatitude p ∧
  Polar.dispose r.1 = (r.1, []) ∧
  ∀ fresh t, Polar.createTileGeometry r.1 fresh t = (None, t, []).
Proof.
  cbn zeta. unfold Polar.dispose.
  destruct p as [maxLat evaluator [northMaterial|] [southMaterial|] cache];
    destruct evaluator; cbn; split_and!; try reflexivity;
    intros fresh t; rewrite createTileGeometry_run; cbn;
    by destruct (_ && _).
Qed.

(** X23. [setStyleSet] first disposes the materials of the previous style set
    and ends with [markTilesDirty]. No material survives the call: afterwards
    each pole has the material made from the first technique the new style set
    matches for it, and none when there is no style set, no matching technique
    or no material for the technique. *)
Theorem setStyleSet_replaces styleSet p :
  let r := Polar.setStyleSet styleSet p in
  r.2 = (Polar.ObjectCall <$> (Polar.dispose p).2) ++ [Polar.MarkTilesDirty] ∧
  Polar.m_northPoleMaterial r.1
  = (styleSet ≫= λ s, head (Polar.getMatchingTechniques s Polar.north_pole)
              ≫= λ technique, Polar.createMaterial technique 1%Z) ∧
  Polar.m_southPoleMaterial r.1
  = (styleSet ≫= λ s, head (Polar.getMatchingTechniques s Polar.south_pole)
              ≫= λ technique, Polar.createMaterial technique 1%Z) ∧
  Polar.m_styleSetEvaluator r.1 = styleSet ∧
  Polar.m_maxLatitude r.1 = Polar.m_maxLatitude p.
Proof.
  cbn zeta. unfold Polar.setStyleSet.
  destruct (polar_dispose_releases p) as (_ & Hn & Hs & He & Hm & _).
  destruct (Polar.dispose p) as [q disposals]. cbn [fst snd] in *.
  destruct styleSet as [s|]; cbn; [|done].
  destruct (Polar.getMatchingTechniques s Polar.north_pole) as [|tn ?],
           (Polar.getMatchingTechniques s Polar.south_pole) as [|ts ?]; cbn; done.
Qed.

Lemma materialCalls_unowned t material :
  m_ownedTextures t = ∅ →
  materialCalls t material = [MaterialDispose (THREE.mat_uuid material)].
Proof.
  intros Hown. unfold materialCalls.
  assert (Hnone : ∀ props, flat_map (λ entry : string * THREE.MaterialProperty,
      match entry.2 with
      | THREE.PropTexture texture =>
          if shouldDisposeTexture t texture then [TextureDispose texture] else []
      | _ => []
      end) props = []).
  { induction props as [|[p v] props IH]; [done|]. cbn. rewrite IH.
    destruct v; try done. unfold shouldDisposeTexture. rewrite Hown.
    by rewrite bool_decide_eq_false_2 by apply not_elem_of_empty. }
  by rewrite Hnone.
Qed.

(** X24. A tile that [getTile] returned with a mesh holds the pole material of
    the data source itself, and the tile does not spare it: [dispose()] on the
    tile calls [dispose] on the buffer geometry of the mesh and on that shared
    material, twice each since the root object is visited twice, and on no
    texture. *)
Theorem getTile_dispose p fresh tileKey :
  let r := Polar.getTile p fresh tileKey in
  is_Some (result r) →
  ∃ material,
    (Polar.m_northPoleMaterial p = Some material
     ∨ Polar.m_southPoleMaterial p = Some material) ∧
    objects (after r)
    = [Polar.Mesh (Polar.new_mesh fresh) (Polar.new_geometry fresh) material] ∧
    calls (dispose (after r))
    = [GeometryDispose (Polar.new_geometry fresh);
       MaterialDispose (THREE.mat_uuid material);
       GeometryDispose (Polar.new_geometry fresh);
       MaterialDispose (THREE.mat_uuid material)].
Proof.
  cbn zeta. unfold Polar.getTile.
  set (tile := Tile_new (Polar.asDataSource p) tileKey None None).
  intros Hsome.
  destruct (createTileGeometry_when p fresh tile) as (_ & _ & Hmesh).
  destruct (Hmesh Hsome) as (material & Hnorth & Hsouth & -> & _).
  exists material. split_and!.
  - destruct (Polar.gt (Polar.north (geoBox tile)) 0 && Polar.ge (Polar.south (geoBox tile)) 0)
      eqn:Hnorthern.
    + left. by apply Hnorth, isNorthPole_true.
    + right. apply Hsouth. intros Hyes%isNorthPole_true. congruence.
  - reflexivity.
  - rewrite dispose_run. cbn.
    unfold clearCalls, objectCalls; cbn.
    rewrite !materialCalls_unowned by reflexivity. reflexivity.
Qed.

End PolarProperties.

(** * Properties of the tile-info emitter *)

Section EmitterProperties.

Import OmvTileInfoEmitter.

Context `{EmitterTypes} `{!EmitterCollaborators}.

Lemma write_write a b e : write b (write a e) = write (a ++ b) e.
Proof. destruct e. unfold write; cbn. by rewrite app_assoc. Qed.

Lemma write_nil e : write [] e = e.
Proof. destruct e. unfold write; cbn. by rewrite app_nil_r. Qed.

Lemma added_write calls e : added e (write calls e) = calls.
Proof. unfold added, write; cbn. by rewrite drop_app_length. Qed.

(** The technique loop, unrolled: the calls of every defined technique in
    order, each with the index the writer returned for it. *)
Lemma forTechniques_calls techniques body : ∀ e,
  ∃ indices,
    length indices = length (defined techniques) ∧
    forTechniques techniques body e
    = write (flat_map (λ ti, addTechnique ti.1 :: body ti.1 ti.2)
               (zip (defined techniques) indices)) e.
Proof.
  induction techniques as [|[technique|] techniques IH]; intros e.
  - exists []. split; [done|]. cbn. by rewrite write_nil.
  - destruct (IH (write (body technique (addTechnique_returns (written e) technique))
                    (write [addTechnique technique] e))) as (indices & Hlen & Hrun).
    exists (addTechnique_returns (written e) technique :: indices).
    split; [cbn; by rewrite Hlen|].
    unfold forTechniques in *. cbn [foldl]. rewrite Hrun, !write_write. done.
  - destruct (IH e) as (indices & Hlen & Hrun). by exists indices.
Qed.

(** The same, with the origin of every index: it is what the writer answers
    to [addTechnique] after the calls made up to that point. *)
Lemma forTechniques_unrolled techniques body : ∀ e,
  ∃ indices,
    length indices = length (defined techniques) ∧
    forTechniques techniques body e
    = write (flat_map (λ ti, addTechnique ti.1 :: body ti.1 ti.2)
               (zip (defined techniques) indices)) e ∧
    ∀ k technique index,
      zip (defined techniques) indices !! k = Some (technique, index) →
      index = addTechnique_returns
                (written e ++ flat_map (λ ti, addTechnique ti.1 :: body ti.1 ti.2)
                                (take k (zip (defined techniques) indices)))
                technique.
Proof.
  induction techniques as [|[technique|] techniques IH]; intros e.
  - exists []. split_and!; [done | by rewrite write_nil | by intros ? ? ? [=]].
  - destruct (IH (write (body technique (addTechnique_returns (written e) technique))
                    (write [addTechnique technique] e)))
      as (indices & Hlen & Hrun & Hindex).
    exists (addTechnique_returns (written e) technique :: indices).
    split_and!; [cbn; by rewrite Hlen | |].
    + unfold forTechniques in *. cbn [foldl]. rewrite Hrun, !write_write. done.
    + intros [|k] t i Hk.
      * cbn in Hk. injection Hk as <- <-. cbn. by rewrite app_nil_r.
      * cbn in Hk. apply Hindex in Hk. rewrite Hk. f_equal.
        cbn [written write]. cbn. by rewrite <- !app_assoc.
  - destruct (IH e) as (indices & Hlen & Hrun & Hindex). by exists indices.
Qed.

Lemma count_app p a b : count p (a ++ b) = (count p a + count p b)%nat.
Proof. unfold count. by rewrite filter_app, length_app. Qed.

Lemma count_cons p c l :
  count p (c :: l) = ((if p c then 1 else 0) + count p l)%nat.
Proof.
  unfold count. rewrite filter_cons. destruct (p c); case_decide; done.
Qed.

Lemma count_flat_map {A} p (f : A → list WriterCall) n l :
  (∀ x, count p (f x) = n) → count p (flat_map f l) = (length l * n)%nat.
Proof.
  intros Hf. induction l as [|x l IH]; [done|].
  cbn [flat_map length]. rewrite count_app, Hf, IH. lia.
Qed.

Lemma zip_length_same {A B} (l : list A) (k : list B) :
  length k = length l → length (zip l k) = length l.
Proof. intros Hlen. rewrite length_zip. lia. Qed.

(** X25. [processPointFeature] keeps the calls made before and adds, for each
    technique that is not [undefined] and in the order of the list, one
    [addTechnique] followed, for each position of the geometry in turn, by one
    [addFeature] and then one [addFeaturePoint]: these calls and no others.
    The [addFeature] of a technique carries the index the writer returned for
    that technique. Every point is written into the point group at the
    coordinates (0, 0), whatever the position was. *)
Theorem processPointFeature_writes layer extents geometry env techniques featureId e :
  let e' := processPointFeature layer extents geometry env techniques featureId e in
  let new := added e e' in
  let callsFor (ti : IndexedTechnique * Z) :=
    addTechnique ti.1 ::
    flat_map (λ pos : Vector2,
      [addFeature pointGroup ti.1 env featureId ti.2 false;
       addFeaturePoint pointGroup 0 0]) geometry in
  written e' = written e ++ new ∧
  (∃ indices,
     length indices = length (defined techniques) ∧
     new = flat_map callsFor (zip (defined techniques) indices) ∧
     ∀ k technique index,
       zip (defined techniques) indices !! k = Some (technique, index) →
       index = addTechnique_returns
                 (written e ++ flat_map callsFor
                                 (take k (zip (defined techniques) indices)))
                 technique) ∧
  count isAddTechnique new = length (defined techniques) ∧
  count isAddFeature new = (length (defined techniques) * length geometry)%nat ∧
  length new = (length (defined techniques) * (1 + 2 * length geometry))%nat ∧
  ∀ group x y, addFeaturePoint group x y ∈ new → group = pointGroup ∧ x = 0 ∧ y = 0.
Proof.
  cbn zeta. unfold processPointFeature.
  destruct (forTechniques_unrolled techniques
    (λ technique infoTileTechniqueIndex,
       flat_map (λ pos : Vector2,
         [addFeature pointGroup technique env featureId infoTileTechniqueIndex false;
          addFeaturePoint pointGroup 0 0]) geometry) e)
    as (indices & Hlen & -> & Hindex).
  rewrite added_write. split; [done|].
  pose proof (zip_length_same (defined techniques) indices Hlen) as Hzip.
  split_and!.
  - exists indices. split_and!; [done | done | exact Hindex].
  - rewrite (count_flat_map _ _ 1); [lia|]. intros [t i].
    rewrite count_cons, (count_flat_map _ _ 0); [cbn; lia|done].
  - rewrite (count_flat_map _ _ (length geometry)); [lia|]. intros [t i].
    rewrite count_cons, (count_flat_map _ _ 1); [cbn; lia|done].
  - rewrite <- Hzip. generalize (zip (defined techniques) indices). intros l.
    induction l as [|[t i] l IH]; [done|]. cbn [flat_map length fst snd].
    rewrite length_app, IH. cbn [length].
    assert (Hgeo : ∀ g : list Vector2, length (flat_map (λ pos : Vector2,
       [addFeature pointGroup t env featureId i false; addFeaturePoint pointGroup 0 0]) g)
       = (2 * length g)%nat).
    { induction g as [|? g IHg]; [done|]. cbn. rewrite IHg. lia. }
    rewrite Hgeo. lia.
  - intros group x y Hin. apply elem_of_flat_map in Hin as ([t i] & _ & Hin).
    apply elem_of_cons in Hin as [?|Hin]; [done|].
    apply elem_of_flat_map in Hin as (pos & _ & Hin).
    apply elem_of_cons in Hin as [?|Hin]; [done|].
    apply list_elem_of_singleton in Hin. by injection Hin as -> -> ->.
Qed.

Lemma zeros_2 {A} (l : list A) :
  flat_map (λ _, [0; 0]) l = replicate (2 * length l) 0.
Proof.
  induction l as [|x l IH]; [done|]. cbn [flat_map length]. rewrite IH.
  replace (2 * S (length l))%nat with (S (S (2 * length l))) by lia. done.
Qed.

Lemma zeros_3 {A} (l : list A) :
  flat_map (λ _, [0; 0; 0]) l = replicate (3 * length l) 0.
Proof.
  induction l as [|x l IH]; [done|]. cbn [flat_map length]. rewrite IH.
  replace (3 * S (length l))%nat with (S (S (S (3 * length l)))) by lia. done.
Qed.

Lemma forTechniques_flags techniques body e :
  m_gatherRoadSegments (forTechniques techniques body e) = m_gatherRoadSegments e.
Proof. by destruct (forTechniques_calls techniques body e) as (? & _ & ->). Qed.

(** The calls [processLineFeature] makes after the technique loop. *)
Lemma processLineFeature_run layer extents geometry env techniques featureId e :
  ∃ indices,
    length indices = length (defined techniques) ∧
    processLineFeature layer extents geometry env techniques featureId e
    = write
        (flat_map (λ ti,
           addTechnique ti.1 ::
           flat_map (λ aLine,
             [addFeature lineGroup ti.1 env featureId ti.2 false;
              addFeaturePoints lineGroup aLine])
             ((λ polyline, flat_map (λ pos, [0; 0]) (positions polyline)) <$> geometry))
           (zip (defined techniques) indices)
         ++ (if m_gatherRoadSegments e then
               match MapEnv_lookup env "segmentId" with
               | Some segmentId =>
                   [addRoadSegments lineGroup segmentId
                      (default (number 0) (MapEnv_lookup env "startOffset"))
                      (default (number 1) (MapEnv_lookup env "endOffset"))]
               | None => []
               end
             else [])) e.
Proof.
  unfold processLineFeature. rewrite forTechniques_flags.
  destruct (forTechniques_calls techniques
    (λ technique infoTileTechniqueIndex,
       flat_map (λ aLine,
         [addFeature lineGroup technique env featureId infoTileTechniqueIndex false;
          addFeaturePoints lineGroup aLine])
         ((λ polyline, flat_map (λ pos, [0; 0]) (positions polyline)) <$> geometry)) e)
    as (indices & Hlen & ->).
  exists indices. split; [done|].
  destruct (m_gatherRoadSegments e); [|by rewrite app_nil_r].
  destruct (MapEnv_lookup env "segmentId"); [|by rewrite app_nil_r].
  by rewrite write_write.
Qed.

(** X26. [processLineFeature] keeps the calls made before and adds, for each
    technique that is not [undefined], one [addTechnique] and one [addFeature]
    per polyline. The points written for a polyline go into the line group and
    are all zero: two zeros for each position of the polyline. *)
Theorem processLineFeature_writes layer extents geometry env techniques featureId e :
  let e' := processLineFeature layer extents geometry env techniques featureId e in
  let new := added e e' in
  written e' = written e ++ new ∧
  count isAddTechnique new = length (defined techniques) ∧
  count isAddFeature new = (length (defined techniques) * length geometry)%nat ∧
  ∀ group points,
    addFeaturePoints group points ∈ new →
    group = lineGroup ∧
    ∃ polyline, polyline ∈ geometry ∧
                points = replicate (2 * length (positions polyline)) 0.
Proof.
  cbn zeta.
  destruct (processLineFeature_run layer extents geometry env techniques featureId e)
    as (indices & Hlen & ->).
  rewrite added_write. split; [done|].
  pose proof (zip_length_same (defined techniques) indices Hlen) as Hzip.
  assert (Hroad : ∀ p, p = isAddTechnique ∨ p = isAddFeature →
    count p (if m_gatherRoadSegments e then
               match MapEnv_lookup env "segmentId" with
               | Some segmentId =>
                   [addRoadSegments lineGroup segmentId
                      (default (number 0) (MapEnv_lookup env "startOffset"))
                      (default (number 1) (MapEnv_lookup env "endOffset"))]
               | None => []
               end
             else []) = 0%nat).
  { intros p [-> | ->]; destruct (m_gatherRoadSegments e); try done;
      by destruct (MapEnv_lookup env "segmentId"). }
  split_and!.
  - rewrite count_app, Hroad by auto.
    rewrite (count_flat_map _ _ 1); [lia|]. intros [t i].
    rewrite count_cons, (count_flat_map _ _ 0); [cbn; lia|done].
  - rewrite count_app, Hroad by auto.
    rewrite (count_flat_map _ _ (length geometry)); [lia|]. intros [t i].
    rewrite count_cons, (count_flat_map _ _ 1); [|done].
    rewrite length_fmap. cbn; lia.
  - intros group points Hin. apply elem_of_app in Hin as [Hin|Hin].
    + apply elem_of_flat_map in Hin as ([t i] & _ & Hin).
      apply elem_of_cons in Hin as [?|Hin]; [done|].
      apply elem_of_flat_map in Hin as (aLine & Hline & Hin).
      apply elem_of_cons in Hin as [?|Hin]; [done|].
      apply list_elem_of_singleton in Hin. injection Hin as -> ->.
      split; [done|]. apply list_elem_of_fmap in Hline as (polyline & -> & Hpoly).
      exists polyline. split; [done|]. apply zeros_2.
    + destruct (m_gatherRoadSegments e); [|by apply elem_of_nil in Hin].
      destruct (MapEnv_lookup env "segmentId"); [|by apply elem_of_nil in Hin].
      by apply list_elem_of_singleton in Hin.
Qed.

(** X27. [processLineFeature] writes road segments exactly when the emitter
    gathers road segments and the environment defines [segmentId], also when
    no technique is defined. The call goes to the line group with that id, is
    the last call of the method, and takes the start offset 0 and the end
    offset 1 where the environment defines none. *)
Theorem processLineFeature_roadSegments layer extents geometry env techniques featureId e :
  let new := added e (processLineFeature layer extents geometry env techniques featureId e) in
  let segment segmentId :=
    addRoadSegments lineGroup segmentId
      (default (number 0) (MapEnv_lookup env "startOffset"))
      (default (number 1) (MapEnv_lookup env "endOffset")) in
  (∀ c, isAddRoadSegments c = true →
        (c ∈ new ↔ m_gatherRoadSegments e = true ∧
                   ∃ segmentId, MapEnv_lookup env "segmentId" = Some segmentId ∧
                                c = segment segmentId)) ∧
  (∀ segmentId, m_gatherRoadSegments e = true →
                MapEnv_lookup env "segmentId" = Some segmentId →
                last new = Some (segment segmentId)).
Proof.
  cbn zeta.
  destruct (processLineFeature_run layer extents geometry env techniques featureId e)
    as (indices & Hlen & ->).
  rewrite added_write. split.
  - intros c Hc. rewrite elem_of_app. split.
    + intros [Hin|Hin].
      * apply elem_of_flat_map in Hin as ([t i] & _ & Hin).
        apply elem_of_cons in Hin as [->|Hin]; [done|].
        apply elem_of_flat_map in Hin as (aLine & _ & Hin).
        apply elem_of_cons in Hin as [->|Hin]; [done|].
        by apply list_elem_of_singleton in Hin as ->.
      * destruct (m_gatherRoadSegments e); [|by apply elem_of_nil in Hin].
        destruct (MapEnv_lookup env "segmentId") as [segmentId|];
          [|by apply elem_of_nil in Hin].
        apply list_elem_of_singleton in Hin. split; [done|]. by exists segmentId.
    + intros [-> (segmentId & -> & ->)]. right. by apply list_elem_of_singleton.
  - intros segmentId -> ->. by rewrite last_snoc.
Qed.

Lemma count_fmap {A} p (f : A → WriterCall) (b : bool) l :
  (∀ x, p (f x) = b) → count p (f <$> l) = if b then length l else 0%nat.
Proof.
  intros Hf. induction l as [|x l IH]; [by destruct b|].
  rewrite fmap_cons, count_cons, Hf, IH. by destruct b.
Qed.

Lemma count_flat_map_zero {A} p (f : A → list WriterCall) l :
  (∀ x, count p (f x) = 0%nat) → count p (flat_map f l) = 0%nat.
Proof. intros Hf. rewrite (count_flat_map _ _ 0) by done. lia. Qed.

(** The ring loop of [processPolygonFeature], unrolled. *)
Lemma ring_loop (polygons : list (list Ring)) : ∀ e,
  foldl (λ e rings,
      match rings with
      | [] => e
      | first :: _ =>
          let outerRingWinding := winding first in
          write ((λ aRing,
                    addRingPoints polygonGroup (contour aRing)
                      (bool_decide (winding aRing = outerRingWinding)))
                 <$> rings) e
      end) e polygons
  = write (flat_map (λ rings,
             (λ aRing,
                addRingPoints polygonGroup (contour aRing)
                  (bool_decide (winding aRing = winding (default aRing (head rings)))))
             <$> rings) polygons) e.
Proof.
  induction polygons as [|rings polygons IH]; intros e; [by rewrite write_nil|].
  cbn [foldl flat_map]. rewrite IH. destruct rings as [|first rings].
  - done.
  - by rewrite write_write.
Qed.

(** X28. [processPolygonFeature] throws exactly when the list of techniques is
    empty. A list that holds only [undefined] entries does not make it throw:
    the method then returns without having written a feature. *)
Theorem processPolygonFeature_throws layer extents geometry env techniques featureId e :
  ((∃ message, processPolygonFeature layer extents geometry env techniques featureId e
               = Thrown message) ↔ techniques = []) ∧
  (techniques ≠ [] → defined techniques = [] →
   ∃ e', processPolygonFeature layer extents geometry env techniques featureId e
         = Returned e' ∧
         count isAddFeature (added e e') = 0%nat ∧
         count isAddTechnique (added e e') = 0%nat).
Proof.
  unfold processPolygonFeature. split.
  - destruct techniques; cbn; [split; [done|by eexists]|].
    split; [by intros [? [=]]|done].
  - intros Hne Hnone. destruct techniques as [|t ts]; [done|]. cbn [length bool_decide].
    rewrite bool_decide_eq_false_2 by done. eexists. split; [reflexivity|].
    rewrite ring_loop.
    destruct (forTechniques_calls (t :: ts)
      (λ technique infoTileTechniqueIndex,
         [addFeature polygonGroup technique env featureId infoTileTechniqueIndex true]) e)
      as (indices & Hlen & ->).
    rewrite Hnone in *. cbn [zip zip_with flat_map]. rewrite write_nil, added_write.
    split; apply count_flat_map_zero; intros rings;
      by rewrite (count_fmap _ _ false).
Qed.

Lemma processPolygonFeature_run layer extents geometry env techniques featureId e :
  techniques ≠ [] →
  ∃ indices,
    length indices = length (defined techniques) ∧
    processPolygonFeature layer extents geometry env techniques featureId e
    = Returned (write
        (flat_map (λ ti,
           [addTechnique ti.1; addFeature polygonGroup ti.1 env featureId ti.2 true])
           (zip (defined techniques) indices)
         ++ flat_map (λ rings,
              (λ aRing,
                 addRingPoints polygonGroup (contour aRing)
                   (bool_decide (winding aRing = winding (default aRing (head rings)))))
              <$> rings)
              ((λ polygon,
                  (λ outline,
                     {| vertexStride := 3;
                        contour := flat_map (λ pos, [0; 0; 0]) (positions outline) |})
                  <$> rings polygon) <$> geometry)) e).
Proof.
  intros Hne. unfold processPolygonFeature.
  rewrite bool_decide_eq_false_2 by by destruct techniques.
  rewrite ring_loop.
  destruct (forTechniques_calls techniques
    (λ technique infoTileTechniqueIndex,
       [addFeature polygonGroup technique env featureId infoTileTechniqueIndex true]) e)
    as (indices & Hlen & ->).
  exists indices. split; [done|]. by rewrite write_write.
Qed.

(** X29. When [processPolygonFeature] returns, it has kept the calls made
    before and added one [addFeature] per technique that is not [undefined],
    however many polygons the geometry has, and one [addRingPoints] per ring
    of the geometry, however many techniques there are. Every contour goes to
    the polygon group and holds only zeros, three for each position, and the
    first ring of every polygon is written as an outer ring. *)
Theorem processPolygonFeature_writes layer extents geometry env techniques featureId e e' :
  processPolygonFeature layer extents geometry env techniques featureId e = Returned e' →
  let new := added e e' in
  written e' = written e ++ new ∧
  count isAddFeature new = length (defined techniques) ∧
  count isAddRingPoints new = sum_list ((λ polygon, length (rings polygon)) <$> geometry) ∧
  (∀ polygon outline rest,
     polygon ∈ geometry → rings polygon = outline :: rest →
     addRingPoints polygonGroup (replicate (3 * length (positions outline)) 0) true ∈ new) ∧
  (∀ group contour outer,
     addRingPoints group contour outer ∈ new →
     group = polygonGroup ∧
     ∃ polygon outline, polygon ∈ geometry ∧ outline ∈ rings polygon ∧
                        contour = replicate (3 * length (positions outline)) 0).
Proof.
  intros Hret. cbn zeta.
  assert (Hne : techniques ≠ []).
  { intros ->. by cbn in Hret. }
  destruct (processPolygonFeature_run layer extents geometry env techniques featureId e Hne)
    as (indices & Hlen & Hrun).
  rewrite Hrun in Hret. injection Hret as <-. rewrite added_write. split; [done|].
  pose proof (zip_length_same (defined techniques) indices Hlen) as Hzip.
  split_and!.
  - rewrite count_app, (count_flat_map _ _ 1) by done.
    rewrite count_flat_map_zero; [lia|].
    intros rings. by rewrite (count_fmap _ _ false).
  - rewrite count_app, count_flat_map_zero by done. cbn [Nat.add].
    clear Hrun. induction geometry as [|polygon geometry IH]; [done|].
    rewrite !fmap_cons. cbn [flat_map sum_list sum_list_with].
    rewrite count_app, IH, (count_fmap _ _ true) by done.
    by rewrite length_fmap.
  - intros polygon outline rest Hin Hrings. apply elem_of_app. right.
    apply elem_of_flat_map. eexists. split.
    { apply list_elem_of_fmap. by exists polygon. }
    rewrite Hrings. rewrite fmap_cons. cbn [head default fmap list_fmap].
    apply elem_of_cons. left. cbn [contour].
    rewrite bool_decide_eq_true_2 by done. by rewrite zeros_3.
  - intros group c outer Hin. apply elem_of_app in Hin as [Hin|Hin].
    + apply elem_of_flat_map in Hin as ([t i] & _ & Hin).
      apply elem_of_cons in Hin as [?|Hin]; [done|].
      by apply list_elem_of_singleton in Hin.
    + apply elem_of_flat_map in Hin as (ringList & Hlist & Hin).
      apply list_elem_of_fmap in Hlist as (polygon & -> & Hpoly).
      apply list_elem_of_fmap in Hin as (ring & Hcall & Hring).
      apply list_elem_of_fmap in Hring as (outline & -> & Hout).
      injection Hcall as -> -> _. split; [done|].
      exists polygon, outline. split_and!; try done. apply zeros_3.
Qed.

Lemma forTechniques_defined techniques body : ∀ e,
  forTechniques techniques body e = forTechniques (Some <$> defined techniques) body e.
Proof.
  induction techniques as [|[technique|] techniques IH]; intros e; [done| |].
  - unfold forTechniques in *. cbn. apply IH.
  - unfold forTechniques in *. cbn. apply IH.
Qed.

(** X30. Entries of the technique list that are [undefined] are passed over
    without a trace: each of the three methods does with a list what it does
    with the list of its defined entries, the polygon method as long as some
    entry is defined. *)
Theorem undefined_techniques_skipped layer extents env techniques featureId e :
  (∀ geometry,
     processPointFeature layer extents geometry env techniques featureId e
     = processPointFeature layer extents geometry env (Some <$> defined techniques)
         featureId e) ∧
  (∀ geometry,
     processLineFeature layer extents geometry env techniques featureId e
     = processLineFeature layer extents geometry env (Some <$> defined techniques)
         featureId e) ∧
  (∀ geometry,
     defined techniques ≠ [] →
     processPolygonFeature layer extents geometry env techniques featureId e
     = processPolygonFeature layer extents geometry env (Some <$> defined techniques)
         featureId e).
Proof.
  split_and!; intros geometry.
  - unfold processPointFeature. apply forTechniques_defined.
  - unfold processLineFeature. by rewrite forTechniques_defined.
  - intros Hdef. unfold processPolygonFeature.
    rewrite (bool_decide_eq_false_2 (length techniques = 0%nat))
      by (destruct techniques; done).
    rewrite (bool_decide_eq_false_2 (length (Some <$> defined techniques) = 0%nat))
      by (destruct (defined techniques); done).
    by rewrite forTechniques_defined.
Qed.

End EmitterProperties.

(** * The further properties at work *)

Import PolarDemo EmitterDemo MoreDemo.

Local Open Scope Z_scope.

(** X2 at the tile that was prepared for picking, looked at in frame 2. *)
Lemma dispose_visibility_witness :
  m_disposed roadTile = false ∧
  frameNumLastRequested (after (dispose roadTile)) = 0 ∧
  (isVisible (atFrame 2) (after (dispose roadTile)) = true ↔ frameNumber (atFrame 2) ≤ 1).
Proof.
  split; [reflexivity|]. apply (dispose_visibility (atFrame 2) roadTile). reflexivity.
Defined.

(** X6 at a tile without user labels. *)
Lemma addUserTextElement_then_remove_witness :
  (3%positive ∉ m_userTextElements requested) ∧
  result (removeUserTextElement 3%positive (after (addUserTextElement 3%positive requested)))
  = true ∧
  m_userTextElements
    (after (removeUserTextElement 3%positive
              (after (addUserTextElement 3%positive requested))))
  = m_userTextElements requested ∧
  m_textElementsChanged
    (after (removeUserTextElement 3%positive
              (after (addUserTextElement 3%positive requested))))
  = true.
Proof.
  assert (Hfresh : 3%positive ∉ m_userTextElements requested) by apply not_elem_of_nil.
  destruct (addUserTextElement_then_remove 3%positive requested)
    as (Hresult & Hchanged & Hback & _).
  split; [exact Hfresh|]. split; [exact Hresult|].
  split; [exact (Hback Hfresh) | exact Hchanged].
Defined.

(** X11 at a tile requested in frame 4 and prepared in frame 9. *)
Lemma prepareTileInfo_guards_witness :
  (m_decodedTile requested = None ∨ m_disposed requested = true ∨
   isVisible (atFrame 9) requested = false ∨
   (∃ decodedTile, m_decodedTile requested = Some decodedTile ∧
                   tileInfo decodedTile = None)) ∧
  prepareTileInfo (atFrame 9) requested = ((), requested, []).
Proof.
  assert (Hguard : m_decodedTile requested = None ∨ m_disposed requested = true ∨
    isVisible (atFrame 9) requested = false ∨
    (∃ decodedTile, m_decodedTile requested = Some decodedTile ∧
                    tileInfo decodedTile = None)).
  { right; right; left. reflexivity. }
  split; [exact Hguard|]. exact (prepareTileInfo_guards (atFrame 9) requested Hguard).
Defined.

(** X18 at two road records with one entry each and [ids] present. *)
Lemma getRoadIntersectionDataSize_depends_witness :
  length (techniqueIndex oneRoad) = length (techniqueIndex otherRoad) ∧
  (is_Some (ids oneRoad) ↔ is_Some (ids otherRoad)) ∧
  (is_Some (objInfos oneRoad) ↔ is_Some (objInfos otherRoad)) ∧
  getRoadIntersectionDataSize oneRoad = getRoadIntersectionDataSize otherRoad.
Proof.
  assert (Hids : is_Some (ids oneRoad) ↔ is_Some (ids otherRoad)).
  { split; intros _; by eexists. }
  assert (Hinfos : is_Some (objInfos oneRoad) ↔ is_Some (objInfos otherRoad)).
  { split; intros [? Hsome]; discriminate Hsome. }
  split; [reflexivity|]. split; [exact Hids|]. split; [exact Hinfos|].
  exact (getRoadIntersectionDataSize_depends oneRoad otherRoad eq_refl Hids Hinfos).
Defined.

(** X20 at the tile of the northern box: the quad spans 85 to 90 degrees. *)
Lemma createTileGeometry_quad_witness :
  result (Polar.createTileGeometry styled fresh northTile) = Some northQuad ∧
  ∃ limitedSouth limitedNorth,
    Polar.vertices northQuad
    = (λ point, Polar.sub (Polar.projectPoint point)
                          (Polar.position (boundingBox northTile)))
      <$> [(limitedSouth, Polar.west (geoBox northTile));
           (limitedSouth, Polar.east (geoBox northTile));
           (limitedNorth, Polar.west (geoBox northTile));
           (limitedNorth, Polar.east (geoBox northTile))] ∧
    Polar.faces northQuad = [(0, 1, 2); (2, 1, 3)] ∧
    (limitedSouth < limitedNorth)%Q ∧
    (Polar.isNorthPole (geoBox northTile) →
     limitedNorth = Polar.north (geoBox northTile) ∧
     (Polar.m_maxLatitude styled <= limitedSouth)%Q ∧
     (Polar.south (geoBox northTile) <= limitedSouth)%Q) ∧
    (¬ Polar.isNorthPole (geoBox northTile) →
     limitedSouth = Polar.south (geoBox northTile) ∧
     (limitedNorth <= - Polar.m_maxLatitude styled)%Q ∧
     (limitedNorth <= Polar.north (geoBox northTile))%Q).
Proof.
  split; [reflexivity|].
  exact (createTileGeometry_quad styled fresh northTile northQuad eq_refl).
Defined.

(** X21 at the key of the northern box, zoom level 2. *)
Lemma shouldRender_getTile_witness :
  2 = Polar.level 1 ∧ 2 ≤ Polar.level 1 ∧
  (0 <= Polar.m_maxLatitude styled)%Q ∧
  (Polar.south (Polar.polarTilingScheme_getGeoBox 1%Z)
   < Polar.north (Polar.polarTilingScheme_getGeoBox 1%Z))%Q ∧
  ((0 <= Polar.south (Polar.polarTilingScheme_getGeoBox 1%Z))%Q
   ∨ (Polar.north (Polar.polarTilingScheme_getGeoBox 1%Z) <= 0)%Q) ∧
  is_Some (Polar.m_northPoleMaterial styled) ∧
  is_Some (Polar.m_southPoleMaterial styled) ∧
  (Polar.shouldRender styled 2 1 = true
   ↔ hasGeometry (after (Polar.getTile styled fresh 1)) = true).
Proof.
  assert (Hmax : (0 <= Polar.m_maxLatitude styled)%Q) by discriminate.
  assert (Hbox : (Polar.south (Polar.polarTilingScheme_getGeoBox 1%Z)
                  < Polar.north (Polar.polarTilingScheme_getGeoBox 1%Z))%Q) by reflexivity.
  assert (Hside : (0 <= Polar.south (Polar.polarTilingScheme_getGeoBox 1%Z))%Q
                  ∨ (Polar.north (Polar.polarTilingScheme_getGeoBox 1%Z) <= 0)%Q)
    by (left; discriminate).
  assert (Hnorth : is_Some (Polar.m_northPoleMaterial styled)) by (by eexists).
  assert (Hsouth : is_Some (Polar.m_southPoleMaterial styled)) by (by eexists).
  split; [reflexivity|]. split; [cbn; lia|].
  split; [exact Hmax|]. split; [exact Hbox|]. split; [exact Hside|].
  split; [exact Hnorth|]. split; [exact Hsouth|].
  exact (shouldRender_getTile styled fresh 2 1 eq_refl ltac:(cbn; lia)
           Hmax Hbox Hside Hnorth Hsouth).
Defined.

(** X24 at the tile the data source returns for the northern box. *)
Lemma getTile_dispose_witness :
  is_Some (result (Polar.getTile styled fresh 1)) ∧
  ∃ material,
    (Polar.m_northPoleMaterial styled = Some material
     ∨ Polar.m_southPoleMaterial styled = Some material) ∧
    objects (after (Polar.getTile styled fresh 1))
    = [Polar.Mesh (Polar.new_mesh fresh) (Polar.new_geometry fresh) material] ∧
    calls (dispose (after (Polar.getTile styled fresh 1)))
    = [GeometryDispose (Polar.new_geometry fresh);
       MaterialDispose (THREE.mat_uuid material);
       GeometryDispose (Polar.new_geometry fresh);
       MaterialDispose (THREE.mat_uuid material)].
Proof.
  assert (Hmesh : is_Some (result (Polar.getTile styled fresh 1))) by (by eexists).
  split; [exact Hmesh|]. exact (getTile_dispose styled fresh 1 Hmesh).
Defined.

(** The pole material is shared: the same material sits in the mesh of every
    tile of the pole, and the data source still holds it when a tile has
    disposed it. *)
Example pole_material_shared :
  calls (dispose (after (Polar.getTile styled fresh 1)))
  = [GeometryDispose 52; MaterialDispose 41; GeometryDispose 52; MaterialDispose 41]%positive ∧
  THREE.mat_uuid <$> Polar.m_northPoleMaterial styled = Some 41%positive.
Proof. split; reflexivity. Qed.

(** X29 at a polygon with two rings, one undefined and one defined technique. *)
Lemma processPolygonFeature_writes_witness :
  OmvTileInfoEmitter.processPolygonFeature "water" 4096 [twoRings] true [None; Some 5]
    (Some 12) emptyEmitter = OmvTileInfoEmitter.Returned afterPolygon ∧
  OmvTileInfoEmitter.written afterPolygon
  = OmvTileInfoEmitter.written emptyEmitter
    ++ OmvTileInfoEmitter.added emptyEmitter afterPolygon ∧
  OmvTileInfoEmitter.count OmvTileInfoEmitter.isAddFeature
    (OmvTileInfoEmitter.added emptyEmitter afterPolygon)
  = length (OmvTileInfoEmitter.defined [None; Some 5]) ∧
  OmvTileInfoEmitter.count OmvTileInfoEmitter.isAddRingPoints
    (OmvTileInfoEmitter.added emptyEmitter afterPolygon)
  = sum_list ((λ polygon, length (OmvTileInfoEmitter.rings polygon)) <$> [twoRings]) ∧
  (∀ polygon outline rest,
     polygon ∈ [twoRings] → OmvTileInfoEmitter.rings polygon = outline :: rest →
     OmvTileInfoEmitter.addRingPoints OmvTileInfoEmitter.polygonGroup
       (replicate (3 * length (OmvTileInfoEmitter.positions outline)) 0) true
     ∈ OmvTileInfoEmitter.added emptyEmitter afterPolygon) ∧
  (∀ group contour outer,
     OmvTileInfoEmitter.addRingPoints group contour outer
     ∈ OmvTileInfoEmitter.added emptyEmitter afterPolygon →
     group = OmvTileInfoEmitter.polygonGroup ∧
     ∃ polygon outline,
       polygon ∈ [twoRings] ∧ outline ∈ OmvTileInfoEmitter.rings polygon ∧
       contour = replicate (3 * length (OmvTileInfoEmitter.positions outline)) 0).
Proof.
  split; [reflexivity|].
  exact (processPolygonFeature_writes "water" 4096 [twoRings] true [None; Some 5]
           (Some 12) emptyEmitter afterPolygon eq_refl).
Defined.

(** The calls of that polygon, in order. *)
Example polygon_calls :
  OmvTileInfoEmitter.written afterPolygon
  = [OmvTileInfoEmitter.addTechnique 5;
     OmvTileInfoEmitter.addFeature OmvTileInfoEmitter.polygonGroup 5 true (Some 12) 0 true;
     OmvTileInfoEmitter.addRingPoints OmvTileInfoEmitter.polygonGroup
       [0; 0; 0; 0; 0; 0; 0; 0; 0] true;
     OmvTileInfoEmitter.addRingPoints OmvTileInfoEmitter.polygonGroup
       [0; 0; 0; 0; 0; 0] true].
Proof. reflexivity. Qed.

(** C6 as the specification words it does not hold on a tile that earlier
    decoded content has refined: content without a bounding box then leaves
    the refined box in place, which is not the box derived from the geo box at
    construction. *)
Lemma setDecodedTile_refined_box_stays :
  dt_boundingBox decodedWithInfo = None ∧
  boundingBox
    (after (setDecodedTile (atFrame 4) decodedWithInfo
       (after (setDecodedTile (atFrame 4) decodedWithBox
                 (Tile_new source 11 None None)))))
  ≠ ds_projectBox source (ds_getGeoBox source 11) OrientedBox3_new.
Proof. split; [reflexivity | vm_compute; discriminate]. Qed.
